(** * Mlearning: the guarded patch-application engine of [src/openaiClient.js]

    A shallow embedding of the patch orchestrator (the [/apply-fix] and
    [/apply-proposal] handlers), the per-file lock, the backup step, the
    positional line diff, the auto-apply policy gate, the deterministic fixer
    and the signature hasher, followed by the properties proved about them.

    Conventions.
    - A JavaScript string is a list of code units; the model covers the code
      units below 256 ([ascii]), read as Latin-1.
    - [undefined] (a missing JSON field, an out-of-range array index) is
      [None].
    - An [async] handler is a state transformer over [World]; an exception is
      the outcome [Threw]. *)

From Stdlib Require Import List Ascii String NArith ZArith Lia Bool SpecFloat.
From stdpp Require Import gmap strings list.

Local Open Scope list_scope.

(** ** JavaScript strings *)

Abbreviation text := (list ascii) (only parsing).

(** A string literal of the source. *)
Definition js (s : string) : text := list_ascii_of_string s.

(** The line feed, written [\n] in the source. *)
Definition LF : ascii := "010"%char.

Module JSString.

(** [s.startsWith(pat)], the test behind [indexOf] and the literal regex. *)
Fixpoint startsWith (pat s : text) : bool :=
  match pat, s with
  | [], _ => true
  | _ :: _, [] => false
  | p :: pat', c :: s' => if decide (p = c) then startsWith pat' s' else false
  end.

(** [s.indexOf(pat)]; the source's [-1] is [None]. *)
Fixpoint indexOf (s pat : text) : option nat :=
  match s with
  | [] => if startsWith pat [] then Some 0 else None
  | c :: s' =>
      if startsWith pat (c :: s') then Some 0 else S <$> indexOf s' pat
  end.

(** [s.slice(0, n)] and [s.slice(n)] for [0 <= n]. *)
Definition slice_to (n : nat) (s : text) : text := take n s.
Definition slice_from (n : nat) (s : text) : text := drop n s.

(** WhiteSpace and LineTerminator code units below 256: TAB, LF, VT, FF,
    CR, SP and NBSP. *)
Definition isWhiteSpace (c : ascii) : bool :=
  match N_of_ascii c with
  | 9%N | 10%N | 11%N | 12%N | 13%N | 32%N | 160%N => true
  | _ => false
  end.

Fixpoint trimStart (s : text) : text :=
  match s with
  | [] => []
  | c :: s' => if isWhiteSpace c then trimStart s' else s
  end.

Definition trimEnd (s : text) : text := reverse (trimStart (reverse s)).

(** [s.trim()] *)
Definition trim (s : text) : text := trimEnd (trimStart s).

(** Upper-case letters below 256: A-Z, and the Latin-1 capitals
    U+00C0..U+00DE without the multiplication sign U+00D7. *)
Definition isUpper (c : ascii) : bool :=
  let n := N_of_ascii c in
  ((65 <=? n) && (n <=? 90)
   || (192 <=? n) && (n <=? 222) && negb (n =? 215))%N.

Definition lowerChar (c : ascii) : ascii :=
  if isUpper c then ascii_of_N (N_of_ascii c + 32) else c.

(** [s.toLowerCase()] *)
Definition toLowerCase (s : text) : text := map lowerChar s.

(** [s.split("\n")]: never empty, [""] splits into [[""]]. *)
Fixpoint split_lines (s : text) : list text :=
  match s with
  | [] => [[]]
  | c :: s' =>
      if decide (c = LF) then [] :: split_lines s'
      else match split_lines s' with
           | l :: ls => (c :: l) :: ls
           | [] => [[c]]
           end
  end.

(** [lines.join("\n")] *)
Fixpoint join_lines (ls : list text) : text :=
  match ls with
  | [] => []
  | [l] => l
  | l :: ls' => l ++ LF :: join_lines ls'
  end.

(** [s.replace(/pat/g, rep)] for a literal, non-empty [pat]: a scan from the
    left; [skip] counts the code units of a match still to be passed. *)
Fixpoint replace_scan (skip : nat) (pat rep s : text) : text :=
  match s with
  | [] => []
  | c :: s' =>
      match skip with
      | S k => replace_scan k pat rep s'
      | 0 =>
          if startsWith pat (c :: s')
          then rep ++ replace_scan (length pat - 1) pat rep s'
          else c :: replace_scan 0 pat rep s'
      end
  end.

Definition replaceAll (pat rep s : text) : text := replace_scan 0 pat rep s.

(** [Buffer.byteLength(s, "utf-8")] for code units below 256. *)
Definition utf8_length (s : text) : nat :=
  foldr (fun c n => (if (N_of_ascii c <? 128)%N then 1 else 2) + n) 0 s.

End JSString.
Import JSString.

(** [x || ""] on a possibly missing string, and [!x]. *)
Definition or_empty (x : option text) : text := default [] x.
Definition falsy (x : option text) : bool :=
  match x with
  | None | Some [] => true
  | Some (_ :: _) => false
  end.

(** ** Configuration (guardrails) *)

Definition BACKUPS_DIR : text := js "fix-backups".

Definition FILE_ALLOWLIST : gset (list ascii) := {[ js "index.js" ]}.
Definition FIX_ALLOWLIST : gset (list ascii) :=
  {[ js "replace_single_with_maybeSingle" ]}.

(** [Set.prototype.has] *)
Definition has (s : gset (list ascii)) (x : text) : bool := bool_decide (x ∈ s).

(** The double nearest to 0.85, [0x3FEB333333333333]. *)
Definition AUTO_APPLY_CONFIDENCE_THRESHOLD : spec_float :=
  S754_finite false 7656119366529843 (-53).

(** ** Insertion zones *)

Definition ROUTES_MARKER : text :=
  js "/* =============================" ++ LF :: js "   ROUTES" ++ LF ::
  js "============================= */".

Definition HELPERS_MARKER : text :=
  js "/* =============================" ++ LF :: js "   HELPERS" ++ LF ::
  js "============================= */".

(** The value of [INSERTION_ZONES[zone]]: an own zone, a member inherited
    from [Object.prototype] (truthy, and its [.marker] is [undefined]), or
    [undefined]. *)
Inductive ZoneLookup :=
  | OwnZone (marker : text)
  | Inherited
  | NoZone.

Global Instance ZoneLookup_eq_dec : EqDecision ZoneLookup.
Proof. solve_decision. Defined.

Definition object_prototype_keys : list text :=
  [ js "constructor"; js "__proto__"; js "hasOwnProperty"; js "isPrototypeOf";
    js "propertyIsEnumerable"; js "toLocaleString"; js "toString";
    js "valueOf"; js "__defineGetter__"; js "__defineSetter__";
    js "__lookupGetter__"; js "__lookupSetter__" ].

Definition INSERTION_ZONES (zone : text) : ZoneLookup :=
  if decide (zone = js "routes") then OwnZone ROUTES_MARKER
  else if decide (zone = js "helpers") then OwnZone HELPERS_MARKER
  else if bool_decide (zone ∈ object_prototype_keys) then Inherited
  else NoZone.

(** ** Semantic diff *)

Record DiffEntry := mkDiff { line : nat; before : text; after : text }.

Global Instance DiffEntry_eq_dec : EqDecision DiffEntry.
Proof. solve_decision. Defined.

(** One turn of the loop of [generateSemanticDiff]. *)
Definition diff_at (o u : list text) (i : nat) : option DiffEntry :=
  if decide (o !! i = u !! i) then None
  else Some (mkDiff (i + 1) (default [] (o !! i)) (default [] (u !! i))).

Definition generateSemanticDiff (original updated : text) : list DiffEntry :=
  let o := split_lines original in
  let u := split_lines updated in
  let max := Nat.max (length o) (length u) in
  omap (diff_at o u) (seq 0 max).

(** ** Auto-apply policy gate *)

Definition canAutoApply (confidenceScore : spec_float) (autoApplicable : bool)
    (fixType targetFile : text) : bool :=
  if negb autoApplicable then false
  else if SFltb confidenceScore AUTO_APPLY_CONFIDENCE_THRESHOLD then false
  else if negb (has FIX_ALLOWLIST fixType) then false
  else if negb (has FILE_ALLOWLIST targetFile) then false
  else true.

(** ** Safe fixers *)

Record FixResult := mkFix { changed : bool; updated : text; summary : text }.

(** The regex [/\.single\(/g] matches this literal; its replacement. *)
Definition single_call : text := js ".single(".
Definition maybeSingle_call : text := js ".maybeSingle(".

Definition fix_replace_single_with_maybeSingle (original : text) : FixResult :=
  let updated := replaceAll single_call maybeSingle_call original in
  let changed := bool_decide (updated <> original) in
  mkFix changed updated
    (if changed
     then js "Replaced .single( with .maybeSingle( to avoid 400 errors on 0-row results."
     else js "No .single( usage found.").

Definition runFix (fixType original : text) : FixResult :=
  if decide (fixType = js "replace_single_with_maybeSingle")
  then fix_replace_single_with_maybeSingle original
  else mkFix false original (js "Unknown fixType").

(** ** Zone insertion: the splice of [/apply-proposal] *)

Definition splice_at (insertionPoint : nat) (original normalizedCode : text) : text :=
  slice_to insertionPoint original ++ LF :: LF :: normalizedCode
    ++ LF :: LF :: slice_from insertionPoint original.

(** Lines 632-645: [None] is the "Insertion marker not found" exit. *)
Definition insert_at_marker (marker original proposedCode : text) : option text :=
  match indexOf original marker with
  | None => None
  | Some idx =>
      let insertionPoint := idx + length marker in
      let normalizedCode := trim proposedCode in
      Some (splice_at insertionPoint original normalizedCode)
  end.


(** ** The world of a request: disk, lock table, event store *)

Inductive Table := fix_attempts | applied_patches | code_proposals | file_snapshots.

Global Instance Table_eq_dec : EqDecision Table.
Proof. solve_decision. Defined.

(** One constructor per payload shape handed to [tryInsert]; the constant
    [source: "panel"] column is left out. *)
Inductive Row :=
  | FixAttemptRow (target_file fix_type mode : text) (changed : bool)
      (summary : text) (diff_count : nat)
  | AppliedPatchRow (project : option (list ascii))
      (target_file patch_type patch_key summary backup_name : text)
  | CodeProposalRow (project target_file insertion_zone intent proposed_code
      proposal_hash mode status : text)
  | FileSnapshotRow (project file_path content_hash : text) (bytes : nat).

(** File-system calls that write, in the order they were made. *)
Inductive FsEvent :=
  | EvCopy (src backupName content : text)
  | EvWrite (path content : text).

Record World := mkWorld {
  files : gmap (list ascii) (list ascii);
  backups : option (gmap (list ascii) (list ascii));
  fileLocks : gmap (list ascii) bool;
  store : list (Table * Row);
  fslog : list FsEvent
}.

(** What a request cannot control: the configured token, the clock, whether
    a system call fails, whether the event store answers. *)
Record Env := mkEnv {
  PANEL_TOKEN : text;
  nowStamp : text;
  read_fails : bool;
  mkdir_fails : bool;
  copy_fails : bool;
  write_fault : option (list ascii);
  insert_ok : Table -> bool;
  select_ok : bool
}.

Inductive Error :=
  | IOError (syscall : text)
  | TypeError (message : text).

(** How an awaited computation ends: with a value, with an exception, or not
    yet, still polling in the loop of [withFileLock]. *)
Inductive Outcome (A : Type) :=
  | Returned (a : A)
  | Threw (e : Error)
  | Polling.
Arguments Returned {A} a.
Arguments Threw {A} e.
Arguments Polling {A}.

Definition M (A : Type) : Type := World -> Outcome A * World.

Global Instance M_ret : MRet M := fun A a w => (Returned a, w).
Global Instance M_bind : MBind M := fun A B k m w =>
  match m w with
  | (Returned a, w') => k a w'
  | (Threw e, w') => (Threw e, w')
  | (Polling, w') => (Polling, w')
  end.

Definition throw {A} (e : Error) : M A := fun w => (Threw e, w).

Definition set_files (f : gmap (list ascii) (list ascii)) (w : World) : World :=
  mkWorld f (backups w) (fileLocks w) (store w) (fslog w).
Definition set_backups (b : option (gmap (list ascii) (list ascii))) (w : World) : World :=
  mkWorld (files w) b (fileLocks w) (store w) (fslog w).
Definition set_fileLocks (l : gmap (list ascii) bool) (w : World) : World :=
  mkWorld (files w) (backups w) l (store w) (fslog w).
Definition set_store (s : list (Table * Row)) (w : World) : World :=
  mkWorld (files w) (backups w) (fileLocks w) s (fslog w).
Definition log_event (e : FsEvent) (w : World) : World :=
  mkWorld (files w) (backups w) (fileLocks w) (store w) (fslog w ++ [e]).

(** ** Simple file lock *)

(** [fileLocks.get(file)] as a condition. *)
Definition held (file : text) (w : World) : bool :=
  default false (fileLocks w !! file).

Definition acquire (file : text) (w : World) : World :=
  set_fileLocks (<[file := true]> (fileLocks w)) w.

Definition release (file : text) (w : World) : World :=
  set_fileLocks (delete file (fileLocks w)) w.

(** [try { return await fn(); } finally { fileLocks.delete(file); }] behind
    the polling loop. A body that never completes never reaches [finally]. *)
Definition withFileLock {A} (file : text) (fn : M A) : M A := fun w =>
  if held file w then (Polling, w)
  else
    match fn (acquire file w) with
    | (Polling, w') => (Polling, w')
    | (o, w') => (o, release file w')
    end.

(** ** Helpers *)

Definition existsSync (p : text) : M bool := fun w =>
  (Returned (bool_decide (is_Some (files w !! p))), w).

Definition readText (env : Env) (filePath : text) : M (list ascii) := fun w =>
  if read_fails env then (Threw (IOError (js "read")), w)
  else match files w !! filePath with
       | Some c => (Returned c, w)
       | None => (Threw (IOError (js "open")), w)
       end.

(** [Some junk]: the write throws and leaves [junk] in the file. *)
Definition writeText (env : Env) (filePath content : text) : M unit := fun w =>
  let w1 := log_event (EvWrite filePath content) w in
  match write_fault env with
  | Some junk => (Threw (IOError (js "write")), set_files (<[filePath := junk]> (files w1)) w1)
  | None => (Returned tt, set_files (<[filePath := content]> (files w1)) w1)
  end.

Definition ensureDir (env : Env) : M unit := fun w =>
  match backups w with
  | Some _ => (Returned tt, w)
  | None =>
      if mkdir_fails env then (Threw (IOError (js "mkdir")), w)
      else (Returned tt, set_backups (Some ∅) w)
  end.

Definition copyFileSync (env : Env) (src dstName : text) : M unit := fun w =>
  if copy_fails env then (Threw (IOError (js "copyfile")), w)
  else match files w !! src, backups w with
       | Some c, Some b =>
           (Returned tt,
            log_event (EvCopy src dstName c) (set_backups (Some (<[dstName := c]> b)) w))
       | _, _ => (Threw (IOError (js "copyfile")), w)
       end.

(** [path.basename]: what follows the last slash. *)
Fixpoint basename (p : text) : text :=
  match p with
  | [] => []
  | c :: p' =>
      if bool_decide ("/"%char ∈ p') then basename p'
      else if decide (c = "/"%char) then p' else p
  end.

Record Backup := mkBackup { backupName : text; backupPath : text }.

Definition backupFile (env : Env) (targetPath : text) : M Backup :=
  _ ← ensureDir env;
  let base := basename targetPath in
  let backupName := base ++ js "." ++ nowStamp env ++ js ".bak" in
  let backupPath := BACKUPS_DIR ++ js "/" ++ backupName in
  _ ← copyFileSync env targetPath backupName;
  mret (mkBackup backupName backupPath).

(** ** Event store (tolerant) *)

(** [tryInsert]: a failed insert is swallowed and adds no row. *)
Definition tryInsert (env : Env) (table : Table) (payload : Row) : M unit := fun w =>
  if insert_ok env table
  then (Returned tt, set_store (store w ++ [(table, payload)]) w)
  else (Returned tt, w).

Definition has_patch_key (key : text) (tr : Table * Row) : option Row :=
  match tr with
  | (applied_patches, AppliedPatchRow p tf pt k s b) =>
      if decide (k = key) then Some (AppliedPatchRow p tf pt k s b) else None
  | _ => None
  end.

(** [.maybeSingle()]: the row when exactly one matches, otherwise no data. *)
Definition maybeSingle (rows : list Row) : option Row :=
  match rows with
  | [r] => Some r
  | _ => None
  end.

(** [from("applied_patches").select("*").eq("patch_key", key).maybeSingle()],
    keeping [data] only; a failed query has no data. *)
Definition select_applied_patch (env : Env) (key : text) : M (option Row) := fun w =>
  if select_ok env
  then (Returned (maybeSingle (omap (has_patch_key key) (store w))), w)
  else (Returned None, w).

(** ** Requests and responses *)

(** The [x-panel-token] header and the JSON body; a missing field is [None]. *)
Record Request := mkRequest {
  x_panel_token : option (list ascii);
  req_targetFile : option (list ascii);
  req_fixType : option (list ascii);
  req_zone : option (list ascii);
  req_proposedCode : option (list ascii);
  req_intent : option (list ascii);
  req_mode : option (list ascii);
  req_project : option (list ascii)
}.

Inductive Body :=
  | ErrorBody (error : text) (proposalHash : option (list ascii))
  | FixPreview (mode targetFile fixType : text) (changed : bool)
      (summary : text) (semanticDiff : list DiffEntry)
  | FixApplied (backup : Backup) (summary : text)
  | ProposalPreview (targetFile zone intent proposalHash : text)
      (semanticDiff : list DiffEntry)
  | ProposalApplied (targetFile zone intent proposalHash : text)
      (backup : Backup) (diff_count : nat).

Record Response := mkResponse { status : nat; body : Body }.

Definition fail (code : nat) (msg : string) : Response :=
  mkResponse code (ErrorBody (js msg) None).
Definition ok (b : Body) : Response := mkResponse 200 b.

(** The response [requirePanelAuth] sends, if it sends one
    ([res.headersSent] afterwards). *)
Definition requirePanelAuth (env : Env) (req : Request) : option Response :=
  if falsy (Some (PANEL_TOKEN env))
  then Some (fail 500 "PANEL_TOKEN is not set. Add it to Secrets to protect apply endpoints.")
  else if falsy (x_panel_token req)
          || bool_decide (or_empty (x_panel_token req) <> PANEL_TOKEN env)
       then Some (fail 401 "Unauthorized (bad token)")
       else None.

(** [["dry-run", "apply"].includes(mode)] *)
Definition valid_mode (mode : text) : bool :=
  bool_decide (mode ∈ [js "dry-run"; js "apply"]).

Section Orchestrator.

(** [crypto.createHash("sha256").update(str).digest("hex")], taken as
    given. *)
Variable sha256 : list ascii -> list ascii.

Definition buildSignature (tool message : option (list ascii)) : text :=
  let raw :=
    toLowerCase (trim (or_empty tool)) ++ js "|"
      ++ toLowerCase (trim (or_empty message)) in
  sha256 raw.

(** The guarded body of [/apply-fix]. *)
Definition apply_fix_locked (env : Env) (targetFile fixType mode targetPath : text)
    : M Response :=
  original ← readText env targetPath;
  let result := runFix fixType original in
  let diff := generateSemanticDiff original (updated result) in
  _ ← tryInsert env fix_attempts
        (FixAttemptRow targetFile fixType mode (changed result)
           (summary result) (length diff));
  if decide (mode = js "dry-run")
  then mret (ok (FixPreview mode targetFile fixType (changed result)
                   (summary result) diff))
  else
    backup ← backupFile env targetPath;
    _ ← writeText env targetPath (updated result);
    _ ← tryInsert env applied_patches
          (AppliedPatchRow None targetFile (js "fix")
             (sha256 (fixType ++ js "|" ++ targetFile ++ js "|" ++ backupName backup))
             (summary result) (backupName backup));
    mret (ok (FixApplied backup (summary result))).

(** [app.post("/apply-fix", ...)] *)
Definition apply_fix (env : Env) (req : Request) : M Response :=
  match requirePanelAuth env req with
  | Some r => mret r
  | None =>
    let targetFile := or_empty (req_targetFile req) in
    let fixType := or_empty (req_fixType req) in
    let mode := default (js "dry-run") (req_mode req) in
    if falsy (req_targetFile req) || falsy (req_fixType req)
    then mret (fail 400 "Missing targetFile or fixType")
    else if negb (has FILE_ALLOWLIST targetFile)
    then mret (fail 403 "File not allowlisted")
    else if negb (has FIX_ALLOWLIST fixType)
    then mret (fail 403 "Fix not allowlisted")
    else if negb (valid_mode mode)
    then mret (fail 400 "Invalid mode")
    else
      let targetPath := targetFile in
      present ← existsSync targetPath;
      if negb present
      then mret (fail 404 "Target file not found")
      else withFileLock targetFile
             (apply_fix_locked env targetFile fixType mode targetPath)
  end.

(** [${targetFile}|${zone}|${intent}|${normalizedCode}], hashed. *)
Definition proposal_hash (targetFile zone intent normalizedCode : text) : text :=
  sha256 (targetFile ++ js "|" ++ zone ++ js "|" ++ intent ++ js "|" ++ normalizedCode).

(** The guarded body of [/apply-proposal], from the marker found at [idx]
    on. *)
Definition apply_proposal_at (env : Env)
    (targetFile zone proposedCode intent mode project targetPath : text)
    (original marker : text) (idx : nat) : M Response :=
  let insertionPoint := idx + length marker in
  let normalizedCode := trim proposedCode in
  let updated := splice_at insertionPoint original normalizedCode in
  let semanticDiff := generateSemanticDiff original updated in
  let proposalHash := proposal_hash targetFile zone intent normalizedCode in
  _ ← tryInsert env code_proposals
        (CodeProposalRow project targetFile zone intent normalizedCode
           proposalHash mode
           (if decide (mode = js "apply") then js "applied_requested"
            else js "previewed"));
  _ ← tryInsert env file_snapshots
        (FileSnapshotRow project targetFile (sha256 original)
           (utf8_length original));
  if decide (mode = js "dry-run")
  then mret (ok (ProposalPreview targetFile zone intent proposalHash semanticDiff))
  else
    already ← select_applied_patch env proposalHash;
    if bool_decide (is_Some already)
    then mret (mkResponse 409
                 (ErrorBody (js "This proposalHash was already applied (duplicate prevented).")
                    (Some proposalHash)))
    else
      backup ← backupFile env targetPath;
      _ ← writeText env targetPath updated;
      _ ← tryInsert env applied_patches
            (AppliedPatchRow (Some project) targetFile (js "proposal")
               proposalHash intent (backupName backup));
      mret (ok (ProposalApplied targetFile zone intent proposalHash backup
                  (length semanticDiff))).

(** The guarded body of [/apply-proposal]. For a zone name inherited from
    [Object.prototype] the marker is [undefined]: [indexOf] then searches
    for the text "undefined", and [marker.length] throws. *)
Definition apply_proposal_locked (env : Env)
    (targetFile zone proposedCode intent mode project targetPath : text)
    : M Response :=
  original ← readText env targetPath;
  match INSERTION_ZONES zone with
  | OwnZone marker =>
      match indexOf original marker with
      | None => mret (fail 400 "Insertion marker not found")
      | Some idx =>
          apply_proposal_at env targetFile zone proposedCode intent mode
            project targetPath original marker idx
      end
  | Inherited =>
      match indexOf original (js "undefined") with
      | None => mret (fail 400 "Insertion marker not found")
      | Some _ => throw (TypeError (js "Cannot read properties of undefined (reading 'length')"))
      end
  | NoZone => throw (TypeError (js "Cannot read properties of undefined (reading 'marker')"))
  end.

(** [app.post("/apply-proposal", ...)] *)
Definition apply_proposal (env : Env) (req : Request) : M Response :=
  match requirePanelAuth env req with
  | Some r => mret r
  | None =>
    let targetFile := or_empty (req_targetFile req) in
    let zone := or_empty (req_zone req) in
    let proposedCode := or_empty (req_proposedCode req) in
    let intent := or_empty (req_intent req) in
    let mode := default (js "dry-run") (req_mode req) in
    let project := default (js "MLearning") (req_project req) in
    if falsy (req_targetFile req) || falsy (req_zone req)
       || falsy (req_proposedCode req) || falsy (req_intent req)
    then mret (fail 400 "Missing targetFile, zone, proposedCode, or intent")
    else if negb (has FILE_ALLOWLIST targetFile)
    then mret (fail 403 "Target file not allowlisted")
    else if bool_decide (INSERTION_ZONES zone = NoZone)
    then mret (mkResponse 400 (ErrorBody (js "Unknown zone: " ++ zone) None))
    else if negb (valid_mode mode)
    then mret (fail 400 "Invalid mode")
    else
      let targetPath := targetFile in
      present ← existsSync targetPath;
      if negb present
      then mret (fail 404 "Target file not found")
      else withFileLock targetFile
             (apply_proposal_locked env targetFile zone proposedCode intent
                mode project targetPath)
  end.

End Orchestrator.

(** ** SHA-256

    The handlers and the signature hasher above are stated for any digest.
    This is the digest the source calls, FIPS 180-4 on the UTF-8 bytes of the
    string, used where two hashes have to be told apart. *)

Module Crypto.

(** [Buffer.from(s, "utf-8")] for code units below 256: one byte below 128,
    two bytes from there on. *)
Definition utf8 (s : text) : list N :=
  c ← s;
  let n := N_of_ascii c in
  if (n <? 128)%N then [n] else [192 + n / 64; 128 + n mod 64]%N.

(** 32-bit words. *)
Definition w32 (x : N) : N := (x mod 2 ^ 32)%N.
Definition add32 (x y : N) : N := w32 (x + y).
Definition not32 (x : N) : N := N.lxor x 4294967295.
Definition rotr (n x : N) : N := N.lor (N.shiftr x n) (w32 (N.shiftl x (32 - n))).
Definition shr (n x : N) : N := N.shiftr x n.

Definition Ch (x y z : N) : N := N.lxor (N.land x y) (N.land (not32 x) z).
Definition Maj (x y z : N) : N :=
  N.lxor (N.lxor (N.land x y) (N.land x z)) (N.land y z).
Definition Sigma0 (x : N) : N := N.lxor (N.lxor (rotr 2 x) (rotr 13 x)) (rotr 22 x).
Definition Sigma1 (x : N) : N := N.lxor (N.lxor (rotr 6 x) (rotr 11 x)) (rotr 25 x).
Definition sigma0 (x : N) : N := N.lxor (N.lxor (rotr 7 x) (rotr 18 x)) (shr 3 x).
Definition sigma1 (x : N) : N := N.lxor (N.lxor (rotr 17 x) (rotr 19 x)) (shr 10 x).

(** The first primes. *)
Definition is_prime (n : nat) : bool :=
  forallb (fun d => negb (n mod d =? 0)) (seq 2 (n - 2)).
Definition primes (count : nat) : list N :=
  N.of_nat <$> take count (filter is_prime (seq 2 400)).

(** The largest [r] below [2 ^ bits] with [r ^ 3 <= x]. *)
Fixpoint cube_root (bits : nat) (x r : N) : N :=
  match bits with
  | 0 => r
  | S b =>
      let r' := (r + 2 ^ N.of_nat b)%N in
      cube_root b x (if (r' * r' * r' <=? x)%N then r' else r)
  end.

(** The round constants: the first 32 bits of the fractional parts of the
    cube roots of the first 64 primes. *)
Definition K : list N :=
  (fun p => w32 (cube_root 40 (p * 2 ^ 96) 0)) <$> primes 64.

(** The initial hash value: the same of the square roots of the first 8
    primes. *)
Definition H0 : list N :=
  (fun p => w32 (N.sqrt (p * 2 ^ 64))) <$> primes 8.

(** The [len] low bytes of [x], most significant first. *)
Fixpoint big_endian (len : nat) (x : N) : list N :=
  match len with
  | 0 => []
  | S k => big_endian k (x / 256) ++ [x mod 256]%N
  end.

(** The message, the byte [0x80], zeros up to 56 modulo 64 bytes, and the
    length in bits on 8 bytes. *)
Definition pad (m : list N) : list N :=
  let l := length m in
  m ++ 128%N :: replicate ((119 - l mod 64) mod 64) 0%N
    ++ big_endian 8 (8 * N.of_nat l).

Fixpoint words (fuel : nat) (bytes : list N) : list N :=
  match fuel, bytes with
  | S k, a :: b :: c :: d :: rest =>
      (((a * 256 + b) * 256 + c) * 256 + d)%N :: words k rest
  | _, _ => []
  end.

Fixpoint blocks (fuel : nat) (ws : list N) : list (list N) :=
  match fuel, ws with
  | S k, _ :: _ => take 16 ws :: blocks k (drop 16 ws)
  | _, _ => []
  end.

(** The message schedule, latest word first. *)
Fixpoint schedule (n : nat) (rev_w : list N) : list N :=
  match n with
  | 0 => rev_w
  | S k =>
      let at_ i := default 0%N (rev_w !! i) in
      schedule k
        (add32 (add32 (sigma1 (at_ 1)) (at_ 6)) (add32 (sigma0 (at_ 14)) (at_ 15))
           :: rev_w)
  end.

Definition round (s : list N) (kw : N * N) : list N :=
  match s with
  | [a; b; c; d; e; f; g; h] =>
      let T1 := add32 (add32 (add32 h (Sigma1 e)) (Ch e f g)) (add32 kw.1 kw.2) in
      let T2 := add32 (Sigma0 a) (Maj a b c) in
      [add32 T1 T2; a; b; c; add32 d T1; e; f; g]
  | _ => s
  end.

Definition compress (h : list N) (block : list N) : list N :=
  let w := reverse (schedule 48 (reverse block)) in
  zip_with add32 h (foldl round h (zip K w)).

Definition digest (m : list N) : list N :=
  let bytes := pad m in
  let ws := words (length bytes) bytes in
  foldl compress H0 (blocks (length ws) ws).

Definition hex_digit (n : N) : ascii :=
  if (n <? 10)%N then ascii_of_N (48 + n) else ascii_of_N (87 + n).

Definition hex (ws : list N) : text :=
  w ← ws; b ← big_endian 4 w; [hex_digit (b / 16); hex_digit (b mod 16)].

(** [crypto.createHash("sha256").update(str).digest("hex")] *)
Definition sha256 (str : text) : text := hex (digest (utf8 str)).

End Crypto.

(** ** Applying a diff, as §8 of the specification words it

    "Applying the sequence of DiffEntries to A (replacing each numbered
    line)": every entry overwrites the line it numbers with its [after]
    string; a line number past the end extends the array, as a JavaScript
    array assignment does. This function is not in the source. *)

Definition assign_line (ls : list text) (i : nat) (v : text) : list text :=
  if decide (i < length ls) then <[i := v]> ls
  else ls ++ replicate (i - length ls) [] ++ [v].

Definition apply_entry (ls : list text) (e : DiffEntry) : list text :=
  assign_line ls (line e - 1) (after e).

Definition apply_diff (A : text) (d : list DiffEntry) : text :=
  join_lines (foldl apply_entry (split_lines A) d).

(** The updated lines, followed by one empty line for every line the
    original has in excess. *)
Definition padded (o u : list (list ascii)) : list (list ascii) :=
  u ++ replicate (length o - length u) [].

(** ** Inputs that differ only in letter case or outer whitespace *)

(** Letter case is read off the capitals. [c.toUpperCase()] for one code
    unit below 256, as 16-bit code units: a-z and the Latin-1 small letters
    U+00E0..U+00FE without the division sign U+00F7 have their capital 32
    below; sharp s becomes "SS"; the capitals of the micro sign and of y
    with diaeresis lie above 255 (U+039C, U+0178). *)
Definition upperUnits (c : ascii) : list N :=
  let n := N_of_ascii c in
  if (n =? 223)%N then [83; 83]%N
  else if (n =? 181)%N then [924]%N
  else if (n =? 255)%N then [376]%N
  else if ((97 <=? n) && (n <=? 122)
           || (224 <=? n) && (n <=? 254) && negb (n =? 247))%N
  then [n - 32]%N
  else [n].

(** [s.toUpperCase()] *)
Definition toUpperCase (s : text) : list N := c ← s; upperUnits c.

(** Two code units with the same capital: the same letter in either case. *)
Definition same_capital (c d : ascii) : Prop := upperUnits c = upperUnits d.


(** A run of whitespace. *)
Definition blank (l : text) : Prop := Forall (fun c => isWhiteSpace c = true) l.

(** [a] and [b] differ only in the whitespace at their two ends. *)
Definition pad_variant (a b : text) : Prop :=
  exists l1 r1 l2 r2 core,
    blank l1 /\ blank r1 /\ blank l2 /\ blank r2 /\
    a = l1 ++ core ++ r1 /\ b = l2 ++ core ++ r2.


(** Sharp s, U+00DF. *)
Definition sharp_s : ascii := "223"%char.

(** ** Test inputs *)

(** A stand-in digest for running the handlers on concrete inputs. *)
Definition plain_digest (s : text) : text := s.

(** An environment in which nothing fails. *)
Definition quiet_env : Env :=
  mkEnv (js "secret") (js "2025-01-01T00-00-00-000Z") false false false None
    (fun _ => true) true.

(** One second later, with the event store taking inserts and failing the
    lookup of [/apply-proposal]. *)
Definition lookup_fails_env : Env :=
  mkEnv (js "secret") (js "2025-01-01T00-00-01-000Z") false false false None
    (fun _ => true) false.

Definition index_js : text :=
  js "const a = 1;" ++ LF :: ROUTES_MARKER ++ LF :: js "db.single()".

Definition test_world : World :=
  mkWorld {[ js "index.js" := index_js ]} None ∅ [] [].

Definition panel_request (mode code : string) : Request :=
  mkRequest (Some (js "secret")) (Some (js "index.js"))
    (Some (js "replace_single_with_maybeSingle")) (Some (js "routes"))
    (Some (js code)) (Some (js "add a route")) (Some (js mode)) None.

(** The file and the result of the marker-insertion example of §8. *)
Definition example_marker : text := js "/* ROUTES */".
Definition example_file : text := js "A" ++ LF :: example_marker ++ LF :: js "B".
Definition example_code : text := js "console.log(1)".

(** The text §8 gives as the result: two line feeds before [B]. *)
Definition example_result_in_spec : text :=
  js "A" ++ LF :: example_marker ++ LF :: LF :: example_code
    ++ LF :: LF :: js "B".

(** The text the splice builds: the line feed that followed the marker is
    kept after the two inserted ones. *)
Definition example_result_of_code : text :=
  js "A" ++ LF :: example_marker ++ LF :: LF :: example_code
    ++ LF :: LF :: LF :: js "B".

(** ** What a request leaves on disk *)

Record Disk := mkDisk {
  d_files : gmap (list ascii) (list ascii);
  d_backups : option (gmap (list ascii) (list ascii));
  d_log : list FsEvent
}.

Definition disk (w : World) : Disk := mkDisk (files w) (backups w) (fslog w).

(** However [m] ends, [R] relates the disk before it to the disk after. *)
Definition ensures {A} (R : Disk -> Disk -> Prop) (m : M A) : Prop :=
  forall w, R (disk w) (disk (m w).2).

(** No file of the working directory was written. *)
Definition no_write (d d' : Disk) : Prop :=
  d_files d' = d_files d /\ d_log d' = d_log d.

(** One write was made, to [path], and the call before it copied the content
    [path] had until then into the backups directory, under the name made
    of the file's name and the clock stamp. [left] is what the write left in
    the file: the new content, or what a failed write made of it. *)
Definition backed_up_write (env : Env) (d d' : Disk) : Prop :=
  exists path old new left,
    let name := basename path ++ js "." ++ nowStamp env ++ js ".bak" in
    d_files d !! path = Some old
    /\ d_log d' = d_log d ++ [EvCopy path name old; EvWrite path new]
    /\ d_backups d' = Some (<[name := old]> (default ∅ (d_backups d)))
    /\ d_files d' = <[path := left]> (d_files d).

(** [backupFile] throws: the copy fails, or the backups directory is missing
    and cannot be made. *)
Definition backup_fails (env : Env) (d : Disk) : Prop :=
  copy_fails env = true \/ (d_backups d = None /\ mkdir_fails env = true).

(** Backup before write, fail closed: a write, if any, follows the backup of
    the content it replaces, and none is made when the backup fails. *)
Definition guarded (env : Env) (d d' : Disk) : Prop :=
  (no_write d d' \/ backed_up_write env d d')
  /\ (backup_fails env d -> no_write d d').

(** The outcome is a response with this status. *)
Definition responds {A} (code : nat) (r : Outcome Response * A) : Prop :=
  exists b, r.1 = Returned (mkResponse code b).


(** ** Preconditions of a successful apply *)

(** The rows of [applied_patches] whose [patch_key] is [key]. *)
Definition patch_records (key : text) (w : World) : list Row :=
  omap (has_patch_key key) (store w).

(** The request passes the token check and the validation of
    [/apply-proposal], names the own zone with [marker], and asks to apply. *)
Definition accepted (env : Env) (req : Request) (marker : text) : Prop :=
  requirePanelAuth env req = None
  /\ falsy (req_targetFile req) = false
  /\ falsy (req_zone req) = false
  /\ falsy (req_proposedCode req) = false
  /\ falsy (req_intent req) = false
  /\ has FILE_ALLOWLIST (or_empty (req_targetFile req)) = true
  /\ INSERTION_ZONES (or_empty (req_zone req)) = OwnZone marker
  /\ req_mode req = Some (js "apply").

(** The lock of [file] is free, and [file] holds [original] with the marker
    first found at [idx]. *)
Definition ready (w : World) (file original marker : text) (idx : nat) : Prop :=
  held file w = false
  /\ files w !! file = Some original
  /\ indexOf original marker = Some idx.

(** No system call fails, and the event store answers the lookup and takes
    the patch record. *)
Definition healthy (env : Env) : Prop :=
  read_fails env = false /\ mkdir_fails env = false /\ copy_fails env = false
  /\ write_fault env = None /\ select_ok env = true
  /\ insert_ok env applied_patches = true.

(** The request with another [proposedCode]. *)
Definition with_code (req : Request) (code : text) : Request :=
  mkRequest (x_panel_token req) (req_targetFile req) (req_fixType req)
    (req_zone req) (Some code) (req_intent req) (req_mode req) (req_project req).


(** [m] returns or throws: it is never left polling. *)
Definition completes {A} (m : M A) : Prop := forall w, (m w).1 <> Polling.


(** ** Bearer-token middleware of the panel routes *)

(** [s.replace(pat, rep)] with a string pattern: the first occurrence only. *)
Fixpoint replaceFirst (pat rep s : text) : text :=
  match s with
  | [] => if startsWith pat [] then rep else []
  | c :: s' =>
      if startsWith pat (c :: s') then rep ++ drop (length pat) (c :: s')
      else c :: replaceFirst pat rep s'
  end.

(** [requirePanelToken]: the response it sends, or [None] when it calls
    [next()]. [authorization] is the request header, if present. *)
Definition requirePanelToken (env : Env) (authorization : option text)
    : option Response :=
  let auth := or_empty authorization in
  let token := replaceFirst (js "Bearer ") [] auth in
  if falsy (Some (PANEL_TOKEN env))
  then Some (fail 500 "PANEL_TOKEN not set")
  else if bool_decide (token <> PANEL_TOKEN env)
       then Some (fail 401 "Invalid panel token")
       else None.

(** ** Auto-apply decision (explain only) *)

(** The two columns of a [verified_solutions] row the route reads; a column
    that is null or missing is [None], and [auto_applicable] is [Some b] only
    for a JSON boolean. *)
Record Solution := mkSolution {
  confidence_score : option spec_float;
  auto_applicable : option bool
}.

(** What [.maybeSingle()] gives back: [data], no data, or [error]. *)
Inductive QueryResult :=
  | QRow (data : Solution)
  | QNone
  | QError (message : text).

Record DecisionRequest := mkDecisionRequest {
  d_tool : option (list ascii);
  d_message : option (list ascii);
  d_fixType : option (list ascii);
  d_targetFile : option (list ascii)
}.

(** [decision ? "All criteria satisfied." : reasons] *)
Inductive Explanation :=
  | AllSatisfied
  | Reasons (reasons : list (list ascii)).

Inductive DecisionBody :=
  | DecisionError (error : text)
  | NoSolution
  | Decision (decision : bool) (confidenceScore : spec_float)
      (autoApplicable : bool) (fixType targetFile : text)
      (explanation : Explanation).

Section Decision.

(** [sha256], and the rendering of a number inside a template string, both
    taken as given. *)
Variable sha256 : list ascii -> list ascii.
Variable show_number : spec_float -> list ascii.

(** The [reasons] array of the route, built by its four tests in order. *)
Definition decision_reasons (confidenceScore : spec_float) (autoApplicable : bool)
    (fixType targetFile : text) : list text :=
  (if negb autoApplicable then [js "Not marked auto_applicable"] else [])
  ++ (if SFltb confidenceScore AUTO_APPLY_CONFIDENCE_THRESHOLD
      then [js "Confidence " ++ show_number confidenceScore ++ js " < "
              ++ show_number AUTO_APPLY_CONFIDENCE_THRESHOLD]
      else [])
  ++ (if negb (has FIX_ALLOWLIST fixType)
      then [js "fixType '" ++ fixType ++ js "' not allowlisted"] else [])
  ++ (if negb (has FILE_ALLOWLIST targetFile)
      then [js "targetFile '" ++ targetFile ++ js "' not allowlisted"] else []).

(** [app.post("/auto-apply-decision", ...)]; [lookup] is the query on
    [verified_solutions] by signature hash. *)
Definition auto_apply_decision (lookup : list ascii -> QueryResult)
    (req : DecisionRequest) : nat * DecisionBody :=
  if falsy (d_tool req) || falsy (d_message req) || falsy (d_fixType req)
  then (400, DecisionError (js "Missing tool/message/fixType"))
  else
    let fixType := or_empty (d_fixType req) in
    let targetFile := default (js "index.js") (d_targetFile req) in
    let signatureHash := buildSignature sha256 (d_tool req) (d_message req) in
    match lookup signatureHash with
    | QError message => (500, DecisionError message)
    | QNone => (200, NoSolution)
    | QRow data =>
        let confidenceScore := default (S754_zero false) (confidence_score data) in
        let autoApplicable := bool_decide (auto_applicable data = Some true) in
        let decision := canAutoApply confidenceScore autoApplicable fixType targetFile in
        let reasons := decision_reasons confidenceScore autoApplicable fixType targetFile in
        (200, Decision decision confidenceScore autoApplicable fixType targetFile
                (if decision then AllSatisfied else Reasons reasons))
    end.

End Decision.

(** ** Introspection of the working directory *)

Record MarkerReport := mkMarkerReport { mr_zone : text; mr_found : bool }.

Record FileReport := mkFileReport {
  fr_file : text;
  fr_bytes : nat;
  fr_markers : list MarkerReport
}.

(** [txt.includes(marker)] *)
Definition includes (txt marker : text) : bool :=
  bool_decide (is_Some (indexOf txt marker)).

(** [Object.entries(INSERTION_ZONES).map(...)] on the text of a file. *)
Definition marker_reports (txt : text) : list MarkerReport :=
  [ mkMarkerReport (js "routes") (includes txt ROUTES_MARKER);
    mkMarkerReport (js "helpers") (includes txt HELPERS_MARKER) ].

(** The loop of [/introspect-app] over the directory entries it kept. *)
Fixpoint introspect_loop (env : Env) (entries : list text) : M (list FileReport) :=
  match entries with
  | [] => mret []
  | f :: rest =>
      present ← existsSync f;
      if has FILE_ALLOWLIST f && present
      then txt ← readText env f;
           more ← introspect_loop env rest;
           mret (mkFileReport f (utf8_length txt) (marker_reports txt) :: more)
      else introspect_loop env rest
  end.

(** [app.get("/introspect-app", ...)]; [listing] is what [readdirSync]
    returns for the working directory. *)
Definition introspect_app (env : Env) (listing : list text) : M (list FileReport) :=
  introspect_loop env (take 200 listing).

(** ** What a handler is confined to *)

(** The name [backupFile] gives the backup of [path]. *)
Definition backup_name (env : Env) (path : text) : text :=
  basename path ++ js "." ++ nowStamp env ++ js ".bak".

(** Files other than [path] keep their content, and every backup stays in the
    backups directory, with its content unless it has the new backup's
    name. *)
Definition confined (env : Env) (path : text) (d d' : Disk) : Prop :=
  (forall f, f <> path -> d_files d' !! f = d_files d !! f)
  /\ (forall b n c,
        d_backups d = Some b -> b !! n = Some c ->
        exists b', d_backups d' = Some b' /\ is_Some (b' !! n)
                   /\ (n <> backup_name env path -> b' !! n = Some c)).

(** The two environments differ at most in whether the audit inserts
    ([fix_attempts], [code_proposals], [file_snapshots]) go through. *)
Definition same_but_audit (env env' : Env) : Prop :=
  PANEL_TOKEN env = PANEL_TOKEN env' /\ nowStamp env = nowStamp env'
  /\ read_fails env = read_fails env' /\ mkdir_fails env = mkdir_fails env'
  /\ copy_fails env = copy_fails env' /\ write_fault env = write_fault env'
  /\ select_ok env = select_ok env'
  /\ insert_ok env applied_patches = insert_ok env' applied_patches.

(** Two worlds that agree on the disk, the locks and the patch records. *)
Definition alike (w w' : World) : Prop :=
  disk w = disk w' /\ fileLocks w = fileLocks w'
  /\ forall key, patch_records key w = patch_records key w'.

(** Run from alike worlds, [m] and [m'] end the same way in alike worlds. *)
Definition agree {A} (m m' : M A) : Prop :=
  forall w w', alike w w' -> (m w).1 = (m' w').1 /\ alike (m w).2 (m' w').2.

(** ** Preconditions of the other paths *)

(** The request passes the token check and the validation of [/apply-fix]
    and asks to apply. *)
Definition accepted_fix (env : Env) (req : Request) : Prop :=
  requirePanelAuth env req = None
  /\ falsy (req_targetFile req) = false
  /\ falsy (req_fixType req) = false
  /\ has FILE_ALLOWLIST (or_empty (req_targetFile req)) = true
  /\ has FIX_ALLOWLIST (or_empty (req_fixType req)) = true
  /\ req_mode req = Some (js "apply").

(** The request passes the token check and the validation of
    [/apply-proposal], in whatever valid mode and for whatever zone name the
    zone table answers. *)
Definition validated (env : Env) (req : Request) : Prop :=
  requirePanelAuth env req = None
  /\ falsy (req_targetFile req) = false
  /\ falsy (req_zone req) = false
  /\ falsy (req_proposedCode req) = false
  /\ falsy (req_intent req) = false
  /\ has FILE_ALLOWLIST (or_empty (req_targetFile req)) = true
  /\ INSERTION_ZONES (or_empty (req_zone req)) <> NoZone
  /\ valid_mode (default (js "dry-run") (req_mode req)) = true.

(** The request with another [mode]. *)
Definition with_mode (req : Request) (mode : text) : Request :=
  mkRequest (x_panel_token req) (req_targetFile req) (req_fixType req)
    (req_zone req) (req_proposedCode req) (req_intent req) (Some mode)
    (req_project req).


(** ** Tag extraction (the fragment at the head of [src/openaiClient.js]) *)

(** [/a|b|c/i.test(text)] for lower-case ASCII alternatives: some alternative
    occurs in the text, letter case aside. *)
Definition test_ci (alternatives : list text) (txt : text) : bool :=
  existsb (includes (toLowerCase txt)) alternatives.

(** The [tags] array: five tests, each pushing its tag. *)
Definition auto_tags (txt : text) : list text :=
  (if test_ci [js "error"; js "fail"; js "exception"] txt then [js "error"] else [])
  ++ (if test_ci [js "success"; js "working"; js "ok"] txt then [js "success"] else [])
  ++ (if test_ci [js "database"; js "sql"; js "supabase"] txt then [js "database"] else [])
  ++ (if test_ci [js "auth"; js "token"; js "permission"] txt then [js "auth"] else [])
  ++ (if test_ci [js "ui"; js "panel"; js "frontend"] txt then [js "ui"] else []).


(** * Properties *)

(** ** Policy gate *)

Lemma SFcompare_antisym (a b : spec_float) :
  SFcompare b a = CompOpp <$> SFcompare a b.
Proof.
  destruct a as [sa|sa| |sa ma ea], b as [sb|sb| |sb mb eb]; cbn;
    try reflexivity; try (destruct sa; reflexivity);
    try (destruct sb; reflexivity);
    try (destruct sa, sb; reflexivity).
  assert (Hm : Pos.compare_cont Eq mb ma = CompOpp (Pos.compare_cont Eq ma mb))
    by (symmetry; apply (Pos.compare_cont_antisym ma mb Eq)).
  f_equal. rewrite (Z.compare_antisym ea eb), Hm.
  destruct sa, sb; cbn; try reflexivity;
    destruct (ea ?= eb)%Z; cbn; try reflexivity;
    destruct (Pos.compare_cont Eq ma mb); reflexivity.
Qed.

Lemma not_below_threshold (c : spec_float) :
  c <> S754_nan ->
  SFltb c AUTO_APPLY_CONFIDENCE_THRESHOLD = false
  <-> SFleb AUTO_APPLY_CONFIDENCE_THRESHOLD c = true.
Proof.
  intros Hnan. unfold SFltb, SFleb.
  rewrite (SFcompare_antisym c AUTO_APPLY_CONFIDENCE_THRESHOLD).
  destruct (SFcompare c AUTO_APPLY_CONFIDENCE_THRESHOLD) as [[]|] eqn:E;
    try (split; intros; [reflexivity || discriminate..]).
  exfalso. destruct c as [s|s| |s m e]; try congruence;
    unfold SFcompare, AUTO_APPLY_CONFIDENCE_THRESHOLD in E;
    try destruct s; discriminate.
Qed.

(** C7. For every confidence score that is a number, [canAutoApply] returns
    true exactly when [autoApplicable] is true, the score is at least the
    threshold 0.85, the fix type is allowlisted and the target file is
    allowlisted. *)
Theorem canAutoApply_iff (confidenceScore : spec_float) (autoApplicable : bool)
    (fixType targetFile : list ascii) :
  confidenceScore <> S754_nan ->
  canAutoApply confidenceScore autoApplicable fixType targetFile = true
  <-> autoApplicable = true
      /\ SFleb AUTO_APPLY_CONFIDENCE_THRESHOLD confidenceScore = true
      /\ fixType ∈ FIX_ALLOWLIST
      /\ targetFile ∈ FILE_ALLOWLIST.
Proof.
  intros Hnan. unfold canAutoApply, has.
  rewrite <- (not_below_threshold _ Hnan).
  destruct autoApplicable; cbn; [|intuition congruence].
  destruct (SFltb confidenceScore AUTO_APPLY_CONFIDENCE_THRESHOLD); cbn;
    [intuition congruence|].
  repeat case_bool_decide; cbn; intuition congruence.
Qed.

(** A score of exactly 0.85 with the other criteria passing is accepted. *)
Lemma canAutoApply_at_threshold :
  AUTO_APPLY_CONFIDENCE_THRESHOLD <> S754_nan
  /\ canAutoApply AUTO_APPLY_CONFIDENCE_THRESHOLD true
       (js "replace_single_with_maybeSingle") (js "index.js") = true.
Proof.
  split; [discriminate|].
  apply (canAutoApply_iff AUTO_APPLY_CONFIDENCE_THRESHOLD true
           (js "replace_single_with_maybeSingle") (js "index.js"));
    [discriminate|].
  repeat split; vm_compute; reflexivity.
Defined.

(** Outside the numbers: [NaN < 0.85] is false, so the score test lets NaN
    through and the other three criteria decide alone. *)
Remark canAutoApply_nan (autoApplicable : bool) (fixType targetFile : list ascii) :
  canAutoApply S754_nan autoApplicable fixType targetFile
  = autoApplicable && has FIX_ALLOWLIST fixType && has FILE_ALLOWLIST targetFile.
Proof.
  unfold canAutoApply. cbn.
  destruct autoApplicable, (has FIX_ALLOWLIST fixType),
    (has FILE_ALLOWLIST targetFile); reflexivity.
Qed.

(** ** Zone insertion *)

(** C4 (amended). Inserting [console.log(1)] after the
    marker in [A\n/* ROUTES */\nB] gives
    [A\n/* ROUTES */\n\nconsole.log(1)\n\n\nB]: three line feeds before [B]. *)
Theorem insert_example :
  insert_at_marker example_marker example_file example_code
  = Some example_result_of_code.
Proof. vm_compute. reflexivity. Qed.

(** The result is not the text §8 gives, with two line feeds before [B]
    (counterexample to C4 as stated). *)
Lemma insert_example_not_as_stated :
  insert_at_marker example_marker example_file example_code
  <> Some example_result_in_spec.
Proof. vm_compute. discriminate. Qed.

(** ** Semantic diff *)

Lemma split_lines_nonempty (s : list ascii) : split_lines s <> [].
Proof.
  destruct s as [|c s]; cbn; [discriminate|].
  case_decide; [discriminate|]. destruct (split_lines s); discriminate.
Qed.

Lemma join_split_lines (s : list ascii) : join_lines (split_lines s) = s.
Proof.
  induction s as [|c s IH]; [reflexivity|].
  pose proof (split_lines_nonempty s) as Hne. cbn [split_lines].
  case_decide as Hc.
  - subst c. destruct (split_lines s) as [|l ls]; [done|].
    cbn [join_lines app]. by rewrite <- IH.
  - destruct (split_lines s) as [|l ls]; [done|].
    rewrite <- IH. destruct ls; reflexivity.
Qed.

Lemma padded_length (o u : list (list ascii)) :
  length (padded o u) = Nat.max (length o) (length u).
Proof. unfold padded. rewrite length_app, length_replicate. lia. Qed.

Lemma padded_lookup (o u : list (list ascii)) (n : nat) :
  n < Nat.max (length o) (length u) ->
  padded o u !! n = Some (default [] (u !! n)).
Proof.
  intros Hn. unfold padded.
  destruct (decide (n < length u)) as [Hu|Hu].
  - rewrite lookup_app_l by done.
    destruct (lookup_lt_is_Some_2 u n Hu) as [x Hx]. by rewrite Hx.
  - rewrite lookup_app_r by lia. rewrite (lookup_ge_None_2 u n) by lia.
    cbn. apply lookup_replicate_2. lia.
Qed.

Lemma assign_line_here (l1 l2 : list (list ascii)) (x v : list ascii) (n : nat) :
  length l1 = n -> assign_line (l1 ++ x :: l2) n v = l1 ++ v :: l2.
Proof.
  intros <-. unfold assign_line. rewrite decide_True by (rewrite length_app; cbn; lia).
  rewrite insert_app_r_alt by lia. by rewrite Nat.sub_diag.
Qed.

Lemma assign_line_end (l : list (list ascii)) (v : list ascii) (n : nat) :
  length l = n -> assign_line l n v = l ++ [v].
Proof.
  intros <-. unfold assign_line. rewrite decide_False by lia. by rewrite Nat.sub_diag.
Qed.

(** After the entries for the first [n] positions the first [n] lines are
    those of the (padded) updated text, the rest still the original's. *)
Lemma apply_entries_prefix (o u : list (list ascii)) (n : nat) :
  n <= Nat.max (length o) (length u) ->
  foldl apply_entry o (omap (diff_at o u) (seq 0 n))
  = take n (padded o u) ++ drop n o.
Proof.
  induction n as [|n IH]; intros Hn; [by rewrite take_0, drop_0|].
  rewrite seq_S, omap_app, foldl_app, IH by lia. cbn [omap list_omap Nat.add].
  assert (Hpad : padded o u !! n = Some (default [] (u !! n)))
    by (apply padded_lookup; lia).
  assert (Hlen : length (take n (padded o u)) = n)
    by (rewrite length_take, padded_length; lia).
  rewrite (take_S_r _ _ _ Hpad), <- app_assoc. cbn [app].
  unfold diff_at. case_decide as Heq; cbn [foldl option_fmap].
  - destruct (u !! n) as [x|] eqn:Hu.
    + by rewrite (drop_S o x n Heq).
    + apply lookup_ge_None_1 in Heq, Hu. lia.
  - unfold apply_entry. cbn [line after]. rewrite Nat.add_sub.
    destruct (o !! n) as [y|] eqn:Ho.
    + rewrite (drop_S o y n Ho). by apply assign_line_here.
    + apply lookup_ge_None_1 in Ho.
      rewrite !drop_ge, !app_nil_r by lia. by apply assign_line_end.
Qed.

Lemma apply_diff_padded (A B : list ascii) :
  apply_diff A (generateSemanticDiff A B)
  = join_lines (padded (split_lines A) (split_lines B)).
Proof.
  unfold apply_diff, generateSemanticDiff. cbv zeta.
  rewrite apply_entries_prefix by done.
  rewrite take_ge by (rewrite padded_length; lia).
  rewrite drop_ge by lia. by rewrite app_nil_r.
Qed.

(** C5 (amended). When the updated text has at least as many lines as the
    original, applying the entries of [generateSemanticDiff A B] to [A]
    gives back [B]. *)
Theorem diff_round_trip (A B : list ascii) :
  length (split_lines A) <= length (split_lines B) ->
  apply_diff A (generateSemanticDiff A B) = B.
Proof.
  intros Hle. rewrite apply_diff_padded. unfold padded.
  replace (length (split_lines A) - length (split_lines B)) with 0 by lia.
  cbn. by rewrite app_nil_r, join_split_lines.
Qed.

Lemma diff_round_trip_witness :
  apply_diff (js "a") (generateSemanticDiff (js "a") (js "x" ++ LF :: js "b"))
  = js "x" ++ LF :: js "b".
Proof.
  apply (diff_round_trip (js "a") (js "x" ++ LF :: js "b")). vm_compute. lia.
Defined.

(** When the updated text has fewer lines the round trip fails: the entry
    for a dropped line carries the empty string, and the line stays
    (counterexample to C5 as stated). *)
Lemma diff_round_trip_fails :
  apply_diff (js "a" ++ LF :: js "b")
    (generateSemanticDiff (js "a" ++ LF :: js "b") (js "a"))
  <> js "a".
Proof. vm_compute. discriminate. Qed.

(** No way of applying the entries can repair this: two different updated
    texts have the same diff against the same original. *)
Remark diff_forgets_dropped_lines :
  generateSemanticDiff (js "a" ++ LF :: js "b") (js "a")
  = generateSemanticDiff (js "a" ++ LF :: js "b") (js "a" ++ [LF]).
Proof. vm_compute. reflexivity. Qed.

(** ** The [replace_single_with_maybeSingle] fixer *)

Section Fixer.

Local Abbreviation pat := single_call.
Local Abbreviation rep := maybeSingle_call.

Lemma indexOf_None_cons (c : ascii) (s p : list ascii) :
  indexOf (c :: s) p = None <-> startsWith p (c :: s) = false /\ indexOf s p = None.
Proof.
  cbn [indexOf]. destruct (startsWith p (c :: s)).
  - split; [discriminate|]. intros [? _]. discriminate.
  - destruct (indexOf s p); cbn; split; try discriminate; try done.
    intros [_ ?]. discriminate.
Qed.

(** A text without a match is left as it is. *)
Lemma replaceAll_no_match (p r s : list ascii) :
  p <> [] -> indexOf s p = None -> replaceAll p r s = s.
Proof.
  intros Hp. unfold replaceAll.
  induction s as [|c s IH]; [reflexivity|].
  intros [Hhere Hrest]%indexOf_None_cons. cbn [replace_scan].
  rewrite Hhere. f_equal. by apply IH.
Qed.

(** What the scan emits can start with a dot-free word only if the input
    did: a replacement starts with a dot. *)
Lemma startsWith_scan_dotfree (w s : list ascii) :
  "."%char ∉ w ->
  startsWith w (replace_scan 0 pat rep s) = true -> startsWith w s = true.
Proof.
  revert s. induction w as [|a w IH]; intros s Hdot; [done|].
  apply not_elem_of_cons in Hdot as [Ha Hw].
  destruct s as [|c s]; [done|]. cbn [replace_scan].
  destruct (startsWith pat (c :: s)).
  - cbn. rewrite decide_False by congruence. discriminate.
  - cbn [startsWith]. case_decide; [|discriminate]. by apply IH.
Qed.

Lemma indexOf_after_rep (v : list ascii) :
  indexOf v pat = None -> indexOf (rep ++ v) pat = None.
Proof. intros Hv. cbn in Hv |- *. by rewrite Hv. Qed.

(** The output of the scan has no match left, whatever the skip count. *)
Lemma replace_scan_clean (s : list ascii) (k : nat) :
  indexOf (replace_scan k pat rep s) pat = None.
Proof.
  revert k. induction s as [|c s IH]; intros k; [by destruct k|].
  cbn [replace_scan]. destruct k as [|k]; [|apply IH].
  destruct (startsWith pat (c :: s)) eqn:Hhere.
  - apply indexOf_after_rep, IH.
  - apply indexOf_None_cons. split; [|apply IH].
    destruct (startsWith pat (c :: replace_scan 0 pat rep s)) eqn:Hout; [|done].
    rewrite <- Hhere. cbn [single_call js list_ascii_of_string startsWith] in Hout |- *.
    case_decide; [|discriminate].
    symmetry. apply (startsWith_scan_dotfree (js "single(")); [|exact Hout].
    vm_compute. intros Hin.
    repeat (apply elem_of_cons in Hin as [Hin|Hin]; [discriminate|]).
    by apply elem_of_nil in Hin.
Qed.

Lemma replaceAll_idempotent (s : list ascii) :
  replaceAll pat rep (replaceAll pat rep s) = replaceAll pat rep s.
Proof.
  apply replaceAll_no_match; [discriminate|]. apply replace_scan_clean.
Qed.

End Fixer.

(** C8. Running the fixer on its own output changes nothing: the second run
    reports [changed = false] and returns the text it was given. *)
Theorem fix_replace_single_idempotent (T : list ascii) :
  let U := updated (fix_replace_single_with_maybeSingle T) in
  changed (fix_replace_single_with_maybeSingle U) = false
  /\ updated (fix_replace_single_with_maybeSingle U) = U.
Proof.
  cbn [fix_replace_single_with_maybeSingle updated changed].
  rewrite replaceAll_idempotent. split; [|reflexivity].
  by apply bool_decide_eq_false_2; intros H; apply H.
Qed.

Example fixer_replaces_every_call :
  updated (fix_replace_single_with_maybeSingle (js "a.single().b.single(x)"))
  = js "a.maybeSingle().b.maybeSingle(x)".
Proof. vm_compute. reflexivity. Qed.

(** ** Trimming and lower-casing *)

Lemma lowerChar_idempotent (c : ascii) : lowerChar (lowerChar c) = lowerChar c.
Proof. destruct c as [[] [] [] [] [] [] [] []]; reflexivity. Qed.





Lemma trimStart_blank (l s : list ascii) :
  blank l -> trimStart (l ++ s) = trimStart s.
Proof. induction 1 as [|c l Hc _ IH]; [done|]. cbn. by rewrite Hc. Qed.

Lemma trimStart_nil_blank (s : list ascii) : trimStart s = [] <-> blank s.
Proof.
  induction s as [|c s IH]; [by split; [constructor|]|].
  cbn. destruct (isWhiteSpace c) eqn:Hc.
  - rewrite IH. split; [by constructor|]. by inversion 1.
  - split; [discriminate|]. inversion 1; congruence.
Qed.

Lemma trimStart_app_keep (s r : list ascii) :
  trimStart s <> [] -> trimStart (s ++ r) = trimStart s ++ r.
Proof.
  induction s as [|c s IH]; [done|]. cbn.
  destruct (isWhiteSpace c); [apply IH|done].
Qed.

Lemma trimEnd_blank (s r : list ascii) :
  blank r -> trimEnd (s ++ r) = trimEnd s.
Proof.
  intros Hr. unfold trimEnd. rewrite reverse_app, trimStart_blank; [done|].
  by apply Forall_reverse.
Qed.

(** Whitespace around a text does not survive [trim]. *)
Lemma trim_blank (l s r : list ascii) :
  blank l -> blank r -> trim (l ++ s ++ r) = trim s.
Proof.
  intros Hl Hr. unfold trim. rewrite trimStart_blank by done.
  destruct (decide (trimStart s = [])) as [Hs|Hs].
  - rewrite Hs. apply trimStart_nil_blank in Hs.
    assert (Hsr : blank (s ++ r)) by by apply Forall_app.
    apply trimStart_nil_blank in Hsr. by rewrite Hsr.
  - by rewrite trimStart_app_keep, trimEnd_blank.
Qed.

Lemma trim_pad_variant (a b : list ascii) : pad_variant a b -> trim a = trim b.
Proof.
  intros (l1 & r1 & l2 & r2 & core & ? & ? & ? & ? & -> & ->).
  by rewrite !trim_blank.
Qed.




(** Code unit by code unit the same capitals: the same text in capitals. *)
Lemma same_capital_toUpperCase (a b : list ascii) :
  Forall2 same_capital a b -> toUpperCase a = toUpperCase b.
Proof.
  unfold toUpperCase. induction 1 as [|x y a b Hxy _ IH]; [done|].
  cbn. by rewrite Hxy, IH.
Qed.


(** ** Signature hasher *)

(** The digest of the model is the digest of the source on the test
    vectors of FIPS 180-4: the empty message, one block, two blocks. *)
Lemma sha256_test_vectors :
  Crypto.sha256 []
  = js "e3b0c44298fc1c149afbf4c8996fb92427ae41e4649b934ca495991b7852b855"
  /\ Crypto.sha256 (js "abc")
     = js "ba7816bf8f01cfea414140de5dae2223b00361a396177a9cb410ff61f20015ad"
  /\ Crypto.sha256 (js "abcdbcdecdefdefgefghfghighijhijkijkljklmklmnlmnomnopnopq")
     = js "248d6a61d20638b8e5c026930c3e6039a33ce45964ff2167f6ecedd419db06c1".
Proof. split; [|split]; vm_compute; reflexivity. Qed.

Lemma sha256_constants :
  length Crypto.K = 64
  /\ Crypto.K !! 0 = Some 0x428a2f98%N /\ Crypto.K !! 63 = Some 0xc67178f2%N
  /\ length Crypto.H0 = 8
  /\ Crypto.H0 !! 0 = Some 0x6a09e667%N /\ Crypto.H0 !! 7 = Some 0x5be0cd19%N.
Proof. vm_compute. by repeat split. Qed.




(** Nor does the same text in capitals at the same length do: the strings
    hashed differ, whatever the digest. *)
Remark same_capitals_differ :
  toUpperCase [sharp_s; "S"%char] = toUpperCase ["S"%char; sharp_s]
  /\ toLowerCase (trim [sharp_s; "S"%char]) <> toLowerCase (trim ["S"%char; sharp_s]).
Proof. split; [reflexivity|]. vm_compute. discriminate. Qed.

(** ** Frame rules for the request monad *)

Section Frames.

Context {A B : Type} (R : Disk -> Disk -> Prop) `{!Reflexive R}.

Lemma ensures_ret (a : A) : ensures R (mret a : M A).
Proof. intros w. reflexivity. Qed.

Lemma ensures_throw (e : Error) : ensures R (throw e : M A).
Proof. intros w. reflexivity. Qed.

(** A prefix that leaves the disk alone can be skipped. *)
Lemma ensures_bind (m : M A) (k : A -> M B) :
  ensures eq m -> (forall a, ensures R (k a)) -> ensures R (m ≫= k).
Proof.
  intros Hm Hk w. specialize (Hm w). unfold mbind, M_bind.
  destruct (m w) as [[a|e|] w1]; cbn in Hm |- *; rewrite Hm;
    [apply Hk|reflexivity..].
Qed.

Lemma ensures_withFileLock (file : list ascii) (fn : M A) :
  ensures R fn -> ensures R (withFileLock file fn).
Proof.
  intros Hfn w. unfold withFileLock.
  destruct (held file w); [reflexivity|].
  specialize (Hfn (acquire file w)).
  by destruct (fn (acquire file w)) as [[a|e|] w1].
Qed.

End Frames.

Lemma existsSync_frame (p : list ascii) : ensures eq (existsSync p).
Proof. by intros w. Qed.

Lemma readText_frame (env : Env) (p : list ascii) : ensures eq (readText env p).
Proof.
  intros w. unfold readText.
  destruct (read_fails env); [done|]. by destruct (files w !! p).
Qed.

Lemma tryInsert_frame (env : Env) (t : Table) (r : Row) :
  ensures eq (tryInsert env t r).
Proof. intros w. unfold tryInsert. by destruct (insert_ok env t). Qed.

Lemma select_applied_patch_frame (env : Env) (key : list ascii) :
  ensures eq (select_applied_patch env key).
Proof. intros w. unfold select_applied_patch. by destruct (select_ok env). Qed.

Global Instance guarded_refl (env : Env) : Reflexive (guarded env).
Proof. intros d. by split; [left|]. Qed.

(** The tail shared by the two apply paths: back up, then overwrite, then
    whatever leaves the disk alone. *)
Lemma commit_guarded {A} (env : Env) (path content : list ascii)
    (k : Backup -> M A) :
  (forall b, ensures eq (k b)) ->
  ensures (guarded env)
    (backupFile env path ≫= λ backup, writeText env path content ≫= λ _, k backup).
Proof.
  intros Hk w. unfold backupFile, ensureDir, copyFileSync, writeText.
  unfold mbind, M_bind, mret, M_ret, guarded, no_write, backup_fails.
  destruct w as [fs bk lk st lg]. cbn.
  destruct bk as [b|]; cbn; [|destruct (mkdir_fails env); cbn];
    destruct (copy_fails env) eqn:Hcopy; cbn; try (split; [left|]; done);
    destruct (fs !! path) as [old|] eqn:Hold; cbn; try (split; [left|]; done);
    destruct (write_fault env) as [junk|]; cbn;
    (split; [right|intros [?|[? ?]]; congruence]);
    unfold ensures in Hk; rewrite <- ?Hk;
    unfold backed_up_write; cbn; eexists path, old, content, _;
    by rewrite <- app_assoc.
Qed.

Ltac frame_step :=
  match goal with
  | H : ?x <> ?x |- _ => by destruct H
  | |- Reflexive _ => apply _
  | |- forall _, _ => intros ?
  | |- ensures _ (match ?x with _ => _ end) => destruct x eqn:?
  | |- ensures _ _ =>
      first
        [ apply ensures_ret | apply ensures_throw
        | apply existsSync_frame | apply readText_frame
        | apply tryInsert_frame | apply select_applied_patch_frame
        | apply commit_guarded
        | apply ensures_withFileLock
        | apply ensures_bind ]
  end.

Ltac frame := repeat frame_step.

(** ** The two handlers: backup before write, preview purity *)

Section Handlers.

Variable sha256 : list ascii -> list ascii.

Lemma apply_fix_guarded (env : Env) (req : Request) :
  ensures (guarded env) (apply_fix sha256 env req).
Proof. unfold apply_fix, apply_fix_locked. cbv zeta. frame. Qed.

Lemma apply_proposal_guarded (env : Env) (req : Request) :
  ensures (guarded env) (apply_proposal sha256 env req).
Proof.
  unfold apply_proposal, apply_proposal_locked, apply_proposal_at.
  cbv zeta. frame.
Qed.

Lemma valid_mode_not_apply (req : Request) :
  req_mode req <> Some (js "apply") ->
  valid_mode (default (js "dry-run") (req_mode req)) = true ->
  default (js "dry-run") (req_mode req) = js "dry-run".
Proof.
  intros Hmode Hvalid. apply bool_decide_eq_true_1 in Hvalid.
  apply elem_of_cons in Hvalid as [?|Hvalid]; [done|].
  apply list_elem_of_singleton in Hvalid.
  destruct (req_mode req) as [m|]; cbn in *; congruence.
Qed.

Lemma apply_fix_preview (env : Env) (req : Request) :
  req_mode req <> Some (js "apply") ->
  ensures eq (apply_fix sha256 env req).
Proof.
  intros Hmode. unfold apply_fix. cbv zeta.
  destruct (requirePanelAuth env req); [frame|].
  repeat (match goal with
          | |- ensures _ (if ?x then _ else _) => destruct x eqn:?
          end; [frame|]).
  rewrite (valid_mode_not_apply req Hmode) by by apply negb_false_iff.
  unfold apply_fix_locked. frame.
Qed.

Lemma apply_proposal_preview (env : Env) (req : Request) :
  req_mode req <> Some (js "apply") ->
  ensures eq (apply_proposal sha256 env req).
Proof.
  intros Hmode. unfold apply_proposal. cbv zeta.
  destruct (requirePanelAuth env req); [frame|].
  repeat (match goal with
          | |- ensures _ (if ?x then _ else _) => destruct x eqn:?
          end; [frame|]).
  rewrite (valid_mode_not_apply req Hmode) by by apply negb_false_iff.
  unfold apply_proposal_locked, apply_proposal_at. cbv zeta. frame.
Qed.

End Handlers.

(** C1. In either handler a write to the target file, if one is made, comes
    right after [backupFile] has copied the content the file had until then
    into the backups directory; when the backup step throws, no write is
    made and the file keeps its content. *)
Theorem write_only_after_backup (sha256 : list ascii -> list ascii)
    (env : Env) (req : Request) (w : World) :
  guarded env (disk w) (disk (apply_fix sha256 env req w).2)
  /\ guarded env (disk w) (disk (apply_proposal sha256 env req w).2).
Proof. split; [apply apply_fix_guarded|apply apply_proposal_guarded]. Qed.

(** An apply that goes through is a backed-up write. *)
Example apply_fix_backs_up :
  backed_up_write quiet_env (disk test_world)
    (disk (apply_fix plain_digest quiet_env (panel_request "apply" "x") test_world).2).
Proof.
  exists (js "index.js"), index_js,
    (js "const a = 1;" ++ LF :: ROUTES_MARKER ++ LF :: js "db.maybeSingle()"),
    (js "const a = 1;" ++ LF :: ROUTES_MARKER ++ LF :: js "db.maybeSingle()").
  repeat split; vm_compute; reflexivity.
Qed.

(** A backup that fails stops the apply: the file is as it was. *)
Example apply_fix_fails_closed :
  let env := mkEnv (js "secret") (js "t") false false true None (fun _ => true) true in
  apply_fix plain_digest env (panel_request "apply" "x") test_world
  = (Threw (IOError (js "copyfile")),
     set_store [(fix_attempts,
                 FixAttemptRow (js "index.js") (js "replace_single_with_maybeSingle")
                   (js "apply") true (summary (runFix (js "replace_single_with_maybeSingle") index_js)) 1)]
       (set_backups (Some ∅) test_world)).
Proof. vm_compute. reflexivity. Qed.

(** C3. With any mode other than [apply] (the preview mode [dry-run], given
    or by default, or an invalid one) neither handler changes a file of the
    working directory or the backups directory, and neither makes a write
    call, however the request ends. *)
Theorem preview_leaves_disk (sha256 : list ascii -> list ascii)
    (env : Env) (req : Request) (w : World) :
  req_mode req <> Some (js "apply") ->
  let w1 := (apply_fix sha256 env req w).2 in
  let w2 := (apply_proposal sha256 env req w).2 in
  (files w1 = files w /\ backups w1 = backups w /\ fslog w1 = fslog w)
  /\ (files w2 = files w /\ backups w2 = backups w /\ fslog w2 = fslog w).
Proof.
  intros Hmode.
  pose proof (apply_fix_preview sha256 env req Hmode w) as H1.
  pose proof (apply_proposal_preview sha256 env req Hmode w) as H2.
  unfold disk in H1, H2. cbv zeta.
  injection H1 as F1 B1 L1. injection H2 as F2 B2 L2. by repeat split.
Qed.

Lemma preview_leaves_disk_witness :
  responds 200 (apply_proposal plain_digest quiet_env (panel_request "dry-run" "x") test_world)
  /\ files (apply_proposal plain_digest quiet_env (panel_request "dry-run" "x") test_world).2
     = files test_world.
Proof.
  split; [by eexists; vm_compute|].
  apply (preview_leaves_disk plain_digest quiet_env (panel_request "dry-run" "x")
           test_world).
  vm_compute. discriminate.
Defined.

(** ** File lock *)

(** C6. Once a locked operation has completed - its body returned or threw -
    its outcome is the body's, the lock of the file is not held any more,
    and a later operation on the same file gets the lock and runs its
    body. *)
Theorem withFileLock_releases {A B : Type} (file : list ascii) (fn : M A)
    (w : World) :
  (withFileLock file fn w).1 <> Polling ->
  let w' := (withFileLock file fn w).2 in
  (withFileLock file fn w).1 = (fn (acquire file w)).1
  /\ fileLocks w' !! file = None
  /\ held file w' = false
  /\ forall fn' : M B, (withFileLock file fn' w').1 = (fn' (acquire file w')).1.
Proof.
  unfold withFileLock at 1 2 3. destruct (held file w); [done|].
  destruct (fn (acquire file w)) as [[a|e|] w1]; cbn; intros Hdone; try done.
  all: assert (Hfree : held file (release file w1) = false)
    by (unfold held, release; cbn; by rewrite lookup_delete_eq).
  all: repeat split; [apply lookup_delete_eq|done|].
  all: intros fn'; unfold withFileLock; rewrite Hfree;
    by destruct (fn' _) as [[?|?|] ?].
Qed.

Lemma withFileLock_releases_witness :
  held (js "index.js")
    (withFileLock (js "index.js") (throw (TypeError (js "boom")) : M Response)
       test_world).2 = false.
Proof.
  apply (@withFileLock_releases Response Response (js "index.js")
           (throw (TypeError (js "boom"))) test_world).
  vm_compute. discriminate.
Defined.

(** ** Duplicate-apply guard *)

Lemma startsWith_app (p r : list ascii) : startsWith p (p ++ r) = true.
Proof. induction p as [|c p IH]; [done|]. cbn. by rewrite decide_True. Qed.

Lemma startsWith_prefix (p s : list ascii) :
  startsWith p s = true -> s = p ++ drop (length p) s.
Proof.
  revert s. induction p as [|c p IH]; intros s; [done|].
  destruct s as [|d s]; [done|]. cbn. case_decide; [|done].
  intros Hs. subst d. f_equal. by apply IH.
Qed.

(** [indexOf] finds a match where it says. *)
Lemma indexOf_Some (s p : list ascii) (i : nat) :
  indexOf s p = Some i -> s = take i s ++ p ++ drop (i + length p) s.
Proof.
  revert i. induction s as [|c s IH]; intros i; cbn [indexOf].
  - destruct (startsWith p []) eqn:Hp; [|done]. intros [= <-].
    by apply startsWith_prefix in Hp.
  - destruct (startsWith p (c :: s)) eqn:Hp.
    + intros [= <-]. by apply startsWith_prefix in Hp.
    + destruct (indexOf s p) as [j|]; [|done]. intros [= <-].
      cbn. f_equal. by apply IH.
Qed.

(** A text that contains the pattern has an index for it. *)
Lemma indexOf_occurs (a p b : list ascii) : is_Some (indexOf (a ++ p ++ b) p).
Proof.
  induction a as [|c a IH]; cbn [app].
  - destruct (p ++ b) as [|d s] eqn:Hs; cbn [indexOf]; rewrite <- Hs;
      by rewrite startsWith_app.
  - cbn [indexOf]. destruct (startsWith p (c :: a ++ p ++ b)); [done|].
    destruct IH as [j ->]. done.
Qed.

(** The marker is still there after the splice. *)
Lemma indexOf_splice (original marker code : list ascii) (idx : nat) :
  indexOf original marker = Some idx ->
  is_Some (indexOf (splice_at (idx + length marker) original code) marker).
Proof.
  intros Hidx. apply indexOf_Some in Hidx. unfold splice_at, slice_to, slice_from.
  rewrite Hidx at 1.
  rewrite take_app_ge by (rewrite length_take; lia).
  rewrite take_app_ge by (rewrite length_take; lia).
  rewrite <- !app_assoc. apply indexOf_occurs.
Qed.

Lemma has_patch_key_other (key : list ascii) (t : Table) (r : Row) :
  t <> applied_patches -> has_patch_key key (t, r) = None.
Proof. by destruct t, r. Qed.

Section Duplicates.

Variable sha256 : list ascii -> list ascii.

(** A request that passes validation on a free lock runs the guarded
    body. *)
Lemma apply_proposal_enters (env : Env) (req : Request) (w : World)
    (original marker : list ascii) (idx : nat) :
  accepted env req marker ->
  read_fails env = false ->
  ready w (or_empty (req_targetFile req)) original marker idx ->
  apply_proposal sha256 env req w
  = match apply_proposal_at sha256 env (or_empty (req_targetFile req))
            (or_empty (req_zone req)) (or_empty (req_proposedCode req))
            (or_empty (req_intent req)) (js "apply")
            (default (js "MLearning") (req_project req))
            (or_empty (req_targetFile req)) original marker idx
            (acquire (or_empty (req_targetFile req)) w) with
    | (Polling, w') => (Polling, w')
    | (o, w') => (o, release (or_empty (req_targetFile req)) w')
    end.
Proof.
  intros (Hauth & Hf1 & Hf2 & Hf3 & Hf4 & Hfile & Hzone & Hmode) Hread
    (Hfree & Hcontent & Hidx).
  unfold apply_proposal. cbv zeta.
  rewrite Hauth, Hf1, Hf2, Hf3, Hf4, Hfile, Hzone, Hmode.
  cbn [orb negb default from_option id].
  rewrite bool_decide_eq_false_2 by done.
  change (valid_mode (js "apply")) with true. cbn [negb].
  unfold mbind at 1, M_bind at 1, existsSync. cbv beta iota.
  rewrite Hcontent. rewrite bool_decide_eq_true_2 by done. cbn [negb].
  unfold withFileLock. rewrite Hfree.
  unfold apply_proposal_locked, mbind at 1, M_bind at 1, readText.
  rewrite Hread. cbn [files acquire set_fileLocks]. rewrite Hcontent.
  by rewrite Hzone, Hidx.
Qed.

(** The guard: with the record there and the lookup answered, the body
    ends with 409 and the disk is as it was. *)
Lemma apply_proposal_at_duplicate (env : Env)
    (targetFile zone code intent project path original marker : list ascii)
    (idx : nat) (w : World) (row : Row) :
  select_ok env = true ->
  patch_records (proposal_hash sha256 targetFile zone intent (trim code)) w = [row] ->
  exists b w',
    apply_proposal_at sha256 env targetFile zone code intent (js "apply")
      project path original marker idx w = (Returned (mkResponse 409 b), w')
    /\ disk w' = disk w /\ fileLocks w' = fileLocks w.
Proof.
  intros Hsel Hrow. unfold apply_proposal_at. cbv zeta.
  rewrite decide_False by done.
  unfold mbind, M_bind, tryInsert, select_applied_patch. rewrite Hsel.
  unfold patch_records in Hrow.
  destruct (insert_ok env code_proposals), (insert_ok env file_snapshots);
    cbn [store set_store];
    rewrite ?omap_app, Hrow; cbn [omap list_omap app];
    rewrite ?has_patch_key_other by done; cbn [maybeSingle app];
    rewrite bool_decide_eq_true_2 by done; by eexists _, _.
Qed.

(** A step that does not touch [applied_patches] leaves the records of a
    hash as they are. *)
Lemma tryInsert_bind {B} (env : Env) (t : Table) (r : Row) (k : unit -> M B)
    (key : list ascii) (w : World) :
  t <> applied_patches ->
  exists w', (tryInsert env t r ≫= k) w = k tt w'
             /\ patch_records key w' = patch_records key w.
Proof.
  intros Ht. unfold mbind, M_bind, tryInsert.
  destruct (insert_ok env t); eexists; (split; [reflexivity|]); [|done].
  unfold patch_records. cbn [store set_store]. rewrite omap_app.
  cbn [omap list_omap]. rewrite has_patch_key_other by done. apply app_nil_r.
Qed.

Lemma select_applied_patch_bind {B} (env : Env) (key : list ascii)
    (k : option Row -> M B) (w : World) :
  (select_applied_patch env key ≫= k) w
  = k (if select_ok env then maybeSingle (patch_records key w) else None) w.
Proof.
  unfold mbind, M_bind, select_applied_patch, patch_records.
  by destruct (select_ok env).
Qed.

(** What follows steps that never answer 409 does not either. *)
Lemma bind_no_conflict {A} (m : M A) (k : A -> M Response) :
  (forall a w, ~ responds 409 (k a w)) ->
  forall w, ~ responds 409 ((m ≫= k) w).
Proof.
  intros Hk w [b Hb]. unfold mbind, M_bind in Hb.
  destruct (m w) as [[a|e|] w'] eqn:Hm; [|done..].
  apply (Hk a w'). by exists b.
Qed.

(** The guard fires in no other case: the body ends with 409 exactly when
    the lookup is answered and finds one record. With the lookup failing,
    or with more than one record of the hash, the proposal goes on to the
    backup and the write. *)
Lemma apply_proposal_at_conflict_iff (env : Env)
    (targetFile zone code intent project path original marker : list ascii)
    (idx : nat) (w : World) :
  responds 409
    (apply_proposal_at sha256 env targetFile zone code intent (js "apply")
       project path original marker idx w)
  <-> select_ok env = true
      /\ exists row,
           patch_records (proposal_hash sha256 targetFile zone intent (trim code)) w
           = [row].
Proof.
  split.
  - unfold apply_proposal_at. cbv zeta. rewrite decide_False by done.
    set (key := proposal_hash sha256 targetFile zone intent (trim code)).
    intros Hr.
    match type of Hr with
    | responds _ ((tryInsert ?e ?t ?r ≫= ?k) ?w0) =>
        destruct (tryInsert_bind e t r k key w0 ltac:(done)) as (w1 & E1 & R1)
    end.
    rewrite E1 in Hr. clear E1. cbv beta in Hr.
    match type of Hr with
    | responds _ ((tryInsert ?e ?t ?r ≫= ?k) ?w0) =>
        destruct (tryInsert_bind e t r k key w0 ltac:(done)) as (w2 & E2 & R2)
    end.
    rewrite E2 in Hr. clear E2. cbv beta in Hr.
    rewrite select_applied_patch_bind, R2, R1 in Hr.
    destruct (select_ok env), (patch_records key w) as [|row [|row' rows]];
      cbn [maybeSingle] in Hr;
      try (by split; [|exists row]);
      rewrite bool_decide_eq_false_2 in Hr by (by intros [? ?]);
      exfalso; revert Hr; apply bind_no_conflict; intros backup w3;
      apply bind_no_conflict; intros _ w4;
      apply bind_no_conflict; intros _ w5; by intros [? [=]].
  - intros (Hsel & row & Hrow).
    destruct (apply_proposal_at_duplicate env targetFile zone code intent project
                path original marker idx w row Hsel Hrow) as (b & w' & -> & _).
    by exists b.
Qed.

End Duplicates.

Section Submissions.

Variable sha256 : list ascii -> list ascii.

(** A first apply in a healthy environment: the file gets the spliced
    text and [applied_patches] gets its one record. *)
Lemma apply_proposal_at_fresh (env : Env)
    (targetFile zone code intent project path original marker : list ascii)
    (idx : nat) (w : World) :
  healthy env ->
  files w !! path = Some original ->
  patch_records (proposal_hash sha256 targetFile zone intent (trim code)) w = [] ->
  exists b w',
    apply_proposal_at sha256 env targetFile zone code intent (js "apply")
      project path original marker idx w = (Returned (ok b), w')
    /\ files w'
       = <[path := splice_at (idx + length marker) original (trim code)]> (files w)
    /\ fileLocks w' = fileLocks w
    /\ exists row,
         patch_records (proposal_hash sha256 targetFile zone intent (trim code)) w'
         = [row].
Proof.
  intros (_ & Hmk & Hcp & Hwr & Hsel & Hins) Hfile Hnone.
  unfold apply_proposal_at. cbv zeta.
  rewrite decide_False by done.
  unfold mbind, M_bind, tryInsert, select_applied_patch, backupFile,
    ensureDir, copyFileSync, writeText, mbind, M_bind, mret, M_ret.
  rewrite Hsel, Hmk, Hcp, Hwr, Hins. unfold patch_records in Hnone |- *.
  destruct w as [fs bk lk st lg]. cbn [store files backups] in Hfile, Hnone.
  destruct (insert_ok env code_proposals), (insert_ok env file_snapshots);
    cbn [store set_store];
    rewrite ?omap_app, Hnone; cbn [omap list_omap app];
    rewrite ?has_patch_key_other by done; cbn [maybeSingle app];
    rewrite bool_decide_eq_false_2 by (by intros [? ?]);
    destruct bk as [b|]; cbn; rewrite Hfile; cbn;
    eexists _, _; (split; [reflexivity|]); cbn;
    (split; [reflexivity|]); (split; [reflexivity|]);
    rewrite ?omap_app, Hnone; cbn [omap list_omap app];
    rewrite ?has_patch_key_other by done; cbn [has_patch_key app];
    rewrite decide_True by done; by eexists.
Qed.

(** Two submissions of one proposal, the first one in a healthy
    environment and without a record of it so far. *)
Lemma resubmission (env1 env2 : Env) (req1 req2 : Request) (w : World)
    (original marker : list ascii) (idx : nat) :
  let file := or_empty (req_targetFile req1) in
  let key := proposal_hash sha256 file (or_empty (req_zone req1))
               (or_empty (req_intent req1))
               (trim (or_empty (req_proposedCode req1))) in
  apply_proposal sha256 env2 req2 = apply_proposal sha256 env2 req1 ->
  accepted env1 req1 marker -> accepted env2 req1 marker ->
  ready w file original marker idx ->
  healthy env1 -> read_fails env2 = false -> select_ok env2 = true ->
  patch_records key w = [] ->
  let first := apply_proposal sha256 env1 req1 w in
  let second := apply_proposal sha256 env2 req2 first.2 in
  responds 200 first
  /\ files first.2 !! file
     = Some (splice_at (idx + length marker) original
               (trim (or_empty (req_proposedCode req1))))
  /\ (exists row, patch_records key first.2 = [row])
  /\ responds 409 second
  /\ disk second.2 = disk first.2.
Proof.
  intros file key Hsame Hacc1 Hacc2 Hready Hhealthy Hread2 Hsel2 Hnone.
  subst file key. cbv zeta. rewrite Hsame. clear Hsame req2.
  assert (Hread1 : read_fails env1 = false) by apply Hhealthy.
  rewrite (apply_proposal_enters sha256 env1 req1 w original marker idx
             Hacc1 Hread1 Hready).
  destruct Hready as (Hfree & Hfile & Hidx).
  destruct (apply_proposal_at_fresh env1 (or_empty (req_targetFile req1))
              (or_empty (req_zone req1)) (or_empty (req_proposedCode req1))
              (or_empty (req_intent req1))
              (default (js "MLearning") (req_project req1))
              (or_empty (req_targetFile req1)) original
              marker idx (acquire (or_empty (req_targetFile req1)) w)
              Hhealthy Hfile Hnone)
    as (b & w1 & -> & Hfiles1 & Hlocks1 & row & Hrow).
  cbn [fst snd].
  destruct (indexOf_splice original marker
              (trim (or_empty (req_proposedCode req1))) idx Hidx)
    as [idx' Hidx'].
  assert (Hready' : ready (release (or_empty (req_targetFile req1)) w1)
                      (or_empty (req_targetFile req1))
                      (splice_at (idx + length marker) original
                         (trim (or_empty (req_proposedCode req1))))
                      marker idx').
  { repeat split; [|by cbn; rewrite Hfiles1; apply lookup_insert_eq|done].
    unfold held, release. cbn. by rewrite lookup_delete_eq. }
  rewrite (apply_proposal_enters sha256 env2 req1 _ _ marker idx'
             Hacc2 Hread2 Hready').
  destruct (apply_proposal_at_duplicate sha256 env2
              (or_empty (req_targetFile req1))
              (or_empty (req_zone req1)) (or_empty (req_proposedCode req1))
              (or_empty (req_intent req1))
              (default (js "MLearning") (req_project req1))
              (or_empty (req_targetFile req1))
              (splice_at (idx + length marker) original
                 (trim (or_empty (req_proposedCode req1))))
              marker idx'
              (acquire (or_empty (req_targetFile req1))
                 (release (or_empty (req_targetFile req1)) w1))
              row Hsel2 Hrow)
    as (b' & w2 & -> & Hdisk & _).
  cbn [fst snd]. repeat split.
  - by eexists.
  - cbn. rewrite Hfiles1. apply lookup_insert_eq.
  - by exists row.
  - by eexists.
  - done.
Qed.

(** The second submission is refused exactly when the lookup is answered
    and finds one record of the hash. *)
Lemma apply_proposal_conflict_iff (env : Env) (req : Request) (w : World)
    (original marker : list ascii) (idx : nat) :
  accepted env req marker ->
  read_fails env = false ->
  ready w (or_empty (req_targetFile req)) original marker idx ->
  responds 409 (apply_proposal sha256 env req w)
  <-> select_ok env = true
      /\ exists row,
           patch_records
             (proposal_hash sha256 (or_empty (req_targetFile req))
                (or_empty (req_zone req)) (or_empty (req_intent req))
                (trim (or_empty (req_proposedCode req)))) w
           = [row].
Proof.
  intros Hacc Hread Hready.
  rewrite (apply_proposal_enters sha256 env req w original marker idx
             Hacc Hread Hready).
  rewrite <- (apply_proposal_at_conflict_iff sha256 env
                (or_empty (req_targetFile req)) (or_empty (req_zone req))
                (or_empty (req_proposedCode req)) (or_empty (req_intent req))
                (default (js "MLearning") (req_project req))
                (or_empty (req_targetFile req)) original marker idx
                (acquire (or_empty (req_targetFile req)) w)).
  unfold responds.
  by destruct (apply_proposal_at _ _ _ _ _ _ _ _ _ _ _ _ _) as [[r|e|] w'].
Qed.

(** With the lookup failing the body goes through, record or no record: a
    backup of the file as it is, and the write. *)
Lemma apply_proposal_at_unanswered (env : Env)
    (targetFile zone code intent project path original marker : list ascii)
    (idx : nat) (w : World) :
  mkdir_fails env = false -> copy_fails env = false -> write_fault env = None ->
  select_ok env = false ->
  files w !! path = Some original ->
  exists b w',
    let updated := splice_at (idx + length marker) original (trim code) in
    apply_proposal_at sha256 env targetFile zone code intent (js "apply")
      project path original marker idx w = (Returned (ok b), w')
    /\ files w' = <[path := updated]> (files w)
    /\ fslog w'
       = fslog w ++ [EvCopy path (backup_name env path) original;
                     EvWrite path updated]
    /\ fileLocks w' = fileLocks w.
Proof.
  intros Hmk Hcp Hwr Hsel Hfile.
  unfold apply_proposal_at. cbv zeta.
  rewrite decide_False by done.
  unfold mbind, M_bind, tryInsert, select_applied_patch, backupFile,
    ensureDir, copyFileSync, writeText, mbind, M_bind, mret, M_ret.
  rewrite Hsel, Hmk, Hcp, Hwr.
  destruct w as [fs bk lk st lg]. cbn [store files backups] in Hfile.
  destruct (insert_ok env code_proposals), (insert_ok env file_snapshots),
    (insert_ok env applied_patches);
    cbn [store set_store];
    rewrite bool_decide_eq_false_2 by (by intros [? ?]);
    destruct bk as [b|]; cbn; rewrite Hfile; cbn;
    eexists _, _; (split; [reflexivity|]); cbn;
    (split; [reflexivity|]); by rewrite <- app_assoc.
Qed.

(** Only the trimmed code enters the guarded body. *)
Lemma apply_proposal_with_code (env : Env) (req : Request)
    (code1 code2 : list ascii) :
  trim code1 = trim code2 -> code1 <> [] -> code2 <> [] ->
  apply_proposal sha256 env (with_code req code1)
  = apply_proposal sha256 env (with_code req code2).
Proof.
  intros Htrim H1 H2. unfold apply_proposal, with_code. cbv zeta.
  cbn [req_targetFile req_zone req_proposedCode req_intent req_mode
       req_project x_panel_token or_empty default from_option id].
  replace (falsy (Some code1)) with false by by destruct code1.
  replace (falsy (Some code2)) with false by by destruct code2.
  unfold requirePanelAuth, apply_proposal_locked, apply_proposal_at.
  cbn [x_panel_token]. by rewrite Htrim.
Qed.

End Submissions.




(** Nor does an answered lookup refuse a hash that has two records:
    [maybeSingle] has no data then, and the third submission goes through. *)
Remark third_submission_applied :
  let req := panel_request "apply" " app.get(1) " in
  let first := apply_proposal Crypto.sha256 quiet_env req test_world in
  let second := apply_proposal Crypto.sha256 lookup_fails_env req first.2 in
  let third := apply_proposal Crypto.sha256 quiet_env req second.2 in
  responds 200 third /\ length (fslog third.2) = 6.
Proof. cbv zeta. split; [by eexists; vm_compute|by vm_compute]. Qed.

(** C10. Two proposals whose (non-empty) codes differ only in the whitespace
    at their two ends have the same proposal hash and the same spliced text,
    and [/apply-proposal] treats them alike: same response, same effects. *)
Theorem whitespace_variants_same_proposal (sha256 : list ascii -> list ascii)
    (env : Env) (req : Request) (code1 code2 : list ascii) (w : World) :
  pad_variant code1 code2 -> code1 <> [] -> code2 <> [] ->
  (forall targetFile zone intent,
     proposal_hash sha256 targetFile zone intent (trim code1)
     = proposal_hash sha256 targetFile zone intent (trim code2))
  /\ (forall marker original,
        insert_at_marker marker original code1
        = insert_at_marker marker original code2)
  /\ apply_proposal sha256 env (with_code req code1) w
     = apply_proposal sha256 env (with_code req code2) w.
Proof.
  intros Hvar H1 H2. pose proof (trim_pad_variant _ _ Hvar) as Htrim.
  split; [|split].
  - intros. by rewrite Htrim.
  - intros. unfold insert_at_marker. by rewrite Htrim.
  - by rewrite (apply_proposal_with_code sha256 env req code1 code2).
Qed.

Lemma whitespace_variants_same_proposal_witness :
  apply_proposal plain_digest quiet_env
    (with_code (panel_request "apply" "x") (js "  app.get(1)" ++ [LF])) test_world
  = apply_proposal plain_digest quiet_env
      (with_code (panel_request "apply" "x") (js "app.get(1) ")) test_world.
Proof.
  apply (whitespace_variants_same_proposal plain_digest quiet_env
           (panel_request "apply" "x") (js "  app.get(1)" ++ [LF])
           (js "app.get(1) ") test_world); [|discriminate..].
  exists (js "  "), [LF], [], (js " "), (js "app.get(1)").
  repeat split; repeat constructor.
Defined.

(** So a whitespace variant of an applied proposal is a duplicate. *)
Remark variant_is_duplicate :
  responds 409
    (apply_proposal plain_digest quiet_env
       (with_code (panel_request "apply" "x") (js "app.get(1) "))
       (apply_proposal plain_digest quiet_env
          (with_code (panel_request "apply" "x") (js "  app.get(1)" ++ [LF]))
          test_world).2).
Proof.
  apply (resubmission plain_digest quiet_env quiet_env
           (with_code (panel_request "apply" "x") (js "  app.get(1)" ++ [LF]))
           (with_code (panel_request "apply" "x") (js "app.get(1) "))
           test_world index_js ROUTES_MARKER 13);
    [by apply apply_proposal_with_code|repeat split; vm_compute; reflexivity..].
Qed.

(** ** The handlers hold the lock only while they run *)

Lemma completes_ret {A} (a : A) : completes (mret a : M A).
Proof. by intros w. Qed.

Lemma completes_throw {A} (e : Error) : completes (throw e : M A).
Proof. by intros w. Qed.

Lemma completes_bind {A B} (m : M A) (k : A -> M B) :
  completes m -> (forall a, completes (k a)) -> completes (m ≫= k).
Proof.
  intros Hm Hk w. specialize (Hm w). unfold mbind, M_bind.
  destruct (m w) as [[a|e|] w1]; [apply Hk|done..].
Qed.

Lemma existsSync_completes (p : list ascii) : completes (existsSync p).
Proof. by intros w. Qed.

Lemma readText_completes (env : Env) (p : list ascii) : completes (readText env p).
Proof. intros w. unfold readText. by repeat case_match. Qed.

Lemma tryInsert_completes (env : Env) (t : Table) (r : Row) :
  completes (tryInsert env t r).
Proof. intros w. unfold tryInsert. by case_match. Qed.

Lemma select_applied_patch_completes (env : Env) (key : list ascii) :
  completes (select_applied_patch env key).
Proof. intros w. unfold select_applied_patch. by case_match. Qed.

Lemma ensureDir_completes (env : Env) : completes (ensureDir env).
Proof. intros w. unfold ensureDir. by repeat case_match. Qed.

Lemma copyFileSync_completes (env : Env) (src dst : list ascii) :
  completes (copyFileSync env src dst).
Proof. intros w. unfold copyFileSync. by repeat case_match. Qed.

Lemma writeText_completes (env : Env) (p c : list ascii) :
  completes (writeText env p c).
Proof. intros w. unfold writeText. by case_match. Qed.

Ltac completes_step :=
  match goal with
  | H : ?x <> ?x |- _ => by destruct H
  | |- forall _, _ => intros ?
  | |- completes (match ?x with _ => _ end) => destruct x eqn:?
  | |- completes _ =>
      first
        [ apply completes_ret | apply completes_throw
        | apply existsSync_completes | apply readText_completes
        | apply tryInsert_completes | apply select_applied_patch_completes
        | apply ensureDir_completes | apply copyFileSync_completes
        | apply writeText_completes
        | apply completes_bind ]
  end.

Section Locking.

Variable sha256 : list ascii -> list ascii.

Lemma apply_fix_locked_completes (env : Env) (targetFile fixType mode path : list ascii) :
  completes (apply_fix_locked sha256 env targetFile fixType mode path).
Proof. unfold apply_fix_locked, backupFile. cbv zeta. repeat completes_step. Qed.

Lemma apply_proposal_locked_completes (env : Env)
    (targetFile zone code intent mode project path : list ascii) :
  completes (apply_proposal_locked sha256 env targetFile zone code intent mode
               project path).
Proof.
  unfold apply_proposal_locked, apply_proposal_at, backupFile. cbv zeta.
  repeat completes_step.
Qed.

(** A body that completes, run under a free lock, leaves the lock free. *)
Lemma withFileLock_completes {A} (file : list ascii) (fn : M A) (w : World) :
  completes fn -> held file w = false ->
  (withFileLock file fn w).1 <> Polling
  /\ held file (withFileLock file fn w).2 = false.
Proof.
  intros Hfn Hfree. unfold withFileLock. rewrite Hfree.
  specialize (Hfn (acquire file w)).
  destruct (fn (acquire file w)) as [[a|e|] w1]; [| |done];
    (split; [done|]); unfold held, release; cbn; by rewrite lookup_delete_eq.
Qed.

(** X11. Whatever the request and however it ends - a validation error, a
    response from the guarded body, an exception thrown in it - neither
    handler is left polling on a free lock, and neither leaves the lock of
    its target file held. *)
Lemma handlers_release_lock (env : Env) (req : Request) (w : World) :
  held (or_empty (req_targetFile req)) w = false ->
  ((apply_fix sha256 env req w).1 <> Polling
   /\ held (or_empty (req_targetFile req)) (apply_fix sha256 env req w).2 = false)
  /\ ((apply_proposal sha256 env req w).1 <> Polling
      /\ held (or_empty (req_targetFile req)) (apply_proposal sha256 env req w).2 = false).
Proof.
  intros Hfree. split.
  - unfold apply_fix. cbv zeta.
    destruct (requirePanelAuth env req); [done|].
    repeat (match goal with
            | |- context [if ?x then mret _ else _] => destruct x eqn:?
            end; [done|]).
    unfold mbind, M_bind, existsSync. cbv beta iota.
    destruct (negb (bool_decide _)); [done|].
    apply withFileLock_completes; [apply apply_fix_locked_completes|done].
  - unfold apply_proposal. cbv zeta.
    destruct (requirePanelAuth env req); [done|].
    repeat (match goal with
            | |- context [if ?x then mret _ else _] => destruct x eqn:?
            end; [done|]).
    unfold mbind, M_bind, existsSync. cbv beta iota.
    destruct (negb (bool_decide _)); [done|].
    apply withFileLock_completes; [apply apply_proposal_locked_completes|done].
Qed.

End Locking.

(** * Further properties of the code *)

(** ** Semantic diff: what the entries say *)

Lemma omap_nil_iff {A B} (f : A -> option B) (l : list A) :
  omap f l = [] <-> forall x, x ∈ l -> f x = None.
Proof.
  induction l as [|a l IH]; cbn [omap list_omap].
  - split; [|done]. intros _ x Hx. by apply elem_of_nil in Hx.
  - destruct (f a) eqn:Hfa.
    + split; [done|]. intros H. specialize (H a (list_elem_of_here a l)). congruence.
    + rewrite IH. split.
      * intros H x [->|Hx]%elem_of_cons; auto.
      * intros H x Hx. apply H. by apply elem_of_cons; right.
Qed.

Lemma diff_lines_nil (o u : list (list ascii)) :
  omap (diff_at o u) (seq 0 (Nat.max (length o) (length u))) = [] <-> o = u.
Proof.
  rewrite omap_nil_iff. split.
  - intros H. apply list_eq. intros i.
    destruct (decide (i < Nat.max (length o) (length u))) as [Hi|Hi].
    + specialize (H i). unfold diff_at in H. case_decide; [done|].
      discriminate H. apply elem_of_seq. lia.
    + rewrite !lookup_ge_None_2 by lia. done.
  - intros -> i _. unfold diff_at. by rewrite decide_True.
Qed.

(** X1. The diff is empty exactly when the two texts are equal. *)
Theorem diff_empty_iff_equal (A B : list ascii) :
  generateSemanticDiff A B = [] <-> A = B.
Proof.
  unfold generateSemanticDiff. cbv zeta. rewrite diff_lines_nil. split.
  - intros H. by rewrite <- (join_split_lines A), H, join_split_lines.
  - by intros ->.
Qed.

Lemma diff_lines_sublist (o u : list (list ascii)) (l : list nat) :
  line <$> omap (diff_at o u) l `sublist_of` S <$> l.
Proof.
  induction l as [|i l IH]; [constructor|].
  cbn [omap list_omap fmap list_fmap]. unfold diff_at at 1.
  case_decide; cbn [fmap list_fmap line].
  - by apply sublist_cons.
  - rewrite Nat.add_1_r. by apply sublist_skip.
Qed.

(** X2. The line numbers of the entries, in the order the entries come, are a
    selection of 1, 2, ..., max(lines of A, lines of B): they are 1-based,
    strictly ascending and within the longer text, and there are at most
    that many entries. *)
Theorem diff_lines_ascending (A B : list ascii) :
  line <$> generateSemanticDiff A B
    `sublist_of` seq 1 (Nat.max (length (split_lines A)) (length (split_lines B)))
  /\ length (generateSemanticDiff A B)
     <= Nat.max (length (split_lines A)) (length (split_lines B)).
Proof.
  assert (Hsub : line <$> generateSemanticDiff A B
            `sublist_of` seq 1 (Nat.max (length (split_lines A))
                                        (length (split_lines B)))).
  { unfold generateSemanticDiff. cbv zeta. rewrite <- fmap_S_seq.
    apply diff_lines_sublist. }
  split; [done|]. apply sublist_length in Hsub.
  by rewrite length_fmap, length_seq in Hsub.
Qed.

(** ** The fixer: what [changed] and [summary] report *)

Lemma replace_scan_fixed (s : list ascii) :
  replace_scan 0 single_call maybeSingle_call s = s ->
  indexOf s single_call = None.
Proof.
  induction s as [|c s IH]; [done|]. cbn [replace_scan].
  destruct (startsWith single_call (c :: s)) eqn:Hhere.
  - apply startsWith_prefix in Hhere. intros Heq. rewrite Hhere in Heq.
    cbn [single_call maybeSingle_call js list_ascii_of_string app] in Heq.
    discriminate Heq.
  - intros [= Hs]. apply indexOf_None_cons. auto.
Qed.

(** X3. The fixer reports [changed = false], with the summary "No .single(
    usage found.", exactly when the text has no [.single(] in it; the text
    is then returned as it is. *)
Theorem fixer_changed_iff_match (T : list ascii) :
  (changed (fix_replace_single_with_maybeSingle T) = false
   <-> indexOf T single_call = None)
  /\ (indexOf T single_call = None ->
      fix_replace_single_with_maybeSingle T
      = mkFix false T (js "No .single( usage found.")).
Proof.
  assert (Hfix : indexOf T single_call = None ->
            fix_replace_single_with_maybeSingle T
            = mkFix false T (js "No .single( usage found.")).
  { intros Hno. unfold fix_replace_single_with_maybeSingle. cbv zeta.
    rewrite (replaceAll_no_match single_call maybeSingle_call T) by done.
    by rewrite bool_decide_eq_false_2 by (by intros H; apply H). }
  split; [|done]. split.
  - cbn [fix_replace_single_with_maybeSingle changed].
    intros Hch. apply bool_decide_eq_false_1 in Hch.
    apply replace_scan_fixed. by destruct (decide (replace_scan 0 single_call
      maybeSingle_call T = T)) as [?|Hne]; [|destruct Hch].
  - intros Hno. by rewrite Hfix.
Qed.

Lemma fixer_changed_iff_match_witness :
  fix_replace_single_with_maybeSingle (js "db.maybeSingle()")
  = mkFix false (js "db.maybeSingle()") (js "No .single( usage found.").
Proof.
  apply (fixer_changed_iff_match (js "db.maybeSingle()")). vm_compute. reflexivity.
Defined.

(** X4. Whatever the fix type and the text, the text [runFix] returns for the
    allowlisted fix has no [.single(] left, and for any other fix type
    [runFix] returns the text it was given with [changed = false]. *)
Theorem runFix_result (fixType T : list ascii) :
  (fixType = js "replace_single_with_maybeSingle" ->
   indexOf (updated (runFix fixType T)) single_call = None)
  /\ (fixType <> js "replace_single_with_maybeSingle" ->
      updated (runFix fixType T) = T /\ changed (runFix fixType T) = false).
Proof.
  unfold runFix. split; intros H.
  - rewrite decide_True by done. apply replace_scan_clean.
  - by rewrite decide_False.
Qed.

Lemma runFix_result_witness :
  indexOf (updated (runFix (js "replace_single_with_maybeSingle")
                      (js "a.single(b.single())"))) single_call = None
  /\ updated (runFix (js "rename_everything") (js "a.single()")) = js "a.single()".
Proof.
  split.
  - by apply (runFix_result (js "replace_single_with_maybeSingle")
                (js "a.single(b.single())")).
  - by apply (runFix_result (js "rename_everything") (js "a.single()")).
Defined.

(** ** Zone insertion: where the code lands *)

Lemma indexOf_bound (s p : list ascii) (i : nat) :
  indexOf s p = Some i -> i + length p <= length s.
Proof.
  revert i. induction s as [|c s IH]; intros i; cbn [indexOf].
  - destruct (startsWith p []) eqn:Hp; [|done]. intros [= <-].
    apply startsWith_prefix in Hp. by destruct p.
  - destruct (startsWith p (c :: s)) eqn:Hp.
    + intros [= <-]. apply startsWith_prefix in Hp.
      apply (f_equal length) in Hp. rewrite length_app in Hp. cbn in *. lia.
    + destruct (indexOf s p) as [j|]; [|done]. intros [= <-].
      specialize (IH j eq_refl). cbn. lia.
Qed.

(** [indexOf] returns the first match. *)
Lemma indexOf_least (a p b : list ascii) (j : nat) :
  indexOf (a ++ p ++ b) p = Some j -> j <= length a.
Proof.
  revert j. induction a as [|c a IH]; intros j; cbn [app].
  - destruct (p ++ b) as [|d s] eqn:Hs; cbn [indexOf]; rewrite <- Hs,
      startsWith_app; intros [= <-]; cbn; lia.
  - cbn [indexOf]. destruct (startsWith p (c :: a ++ p ++ b)).
    + intros [= <-]. lia.
    + destruct (indexOf (a ++ p ++ b) p) as [k|]; [|done]. intros [= <-].
      specialize (IH k eq_refl). cbn. lia.
Qed.

Lemma indexOf_Some_iff (s p : list ascii) (i : nat) :
  indexOf s p = Some i
  <-> s = take i s ++ p ++ drop (i + length p) s
      /\ i + length p <= length s
      /\ forall a b, s = a ++ p ++ b -> i <= length a.
Proof.
  split.
  - intros Hi. split; [by apply indexOf_Some|]. split; [by apply indexOf_bound|].
    intros a b Hs. rewrite Hs in Hi. by apply indexOf_least in Hi.
  - intros (Hs & Hlen & Hmin).
    destruct (indexOf_occurs (take i s) p (drop (i + length p) s)) as [j Hj].
    rewrite <- Hs in Hj. rewrite Hj. f_equal.
    pose proof (indexOf_least (take i s) p (drop (i + length p) s) j) as Hle.
    rewrite <- Hs in Hle. specialize (Hle Hj). rewrite length_take in Hle.
    specialize (Hmin _ _ (indexOf_Some _ _ _ Hj)). rewrite length_take in Hmin.
    lia.
Qed.

Lemma indexOf_None_iff (s p : list ascii) :
  indexOf s p = None <-> forall a b, s <> a ++ p ++ b.
Proof.
  split.
  - intros Hnone a b ->. destruct (indexOf_occurs a p b) as [j Hj]. congruence.
  - intros Hno. destruct (indexOf s p) as [i|] eqn:Hi; [|done].
    destruct (Hno _ _ (indexOf_Some _ _ _ Hi)).
Qed.

(** X5. The insertion fails with "Insertion marker not found" exactly when
    the marker text occurs nowhere in the file. *)
Theorem insert_at_marker_None (marker original code : list ascii) :
  insert_at_marker marker original code = None
  <-> forall pre post, original <> pre ++ marker ++ post.
Proof.
  rewrite <- indexOf_None_iff. unfold insert_at_marker.
  by destruct (indexOf original marker).
Qed.

(** X6. The insertion succeeds with [updated] exactly when the file is
    [pre ++ marker ++ post] with this the first occurrence of the marker, and
    [updated] is [pre ++ marker], two line feeds, the trimmed code, two line
    feeds, [post]: nothing of the file is dropped or reordered. *)
Theorem insert_at_marker_Some (marker original code updated : list ascii) :
  insert_at_marker marker original code = Some updated
  <-> exists pre post,
        original = pre ++ marker ++ post
        /\ (forall a b, original = a ++ marker ++ b -> length pre <= length a)
        /\ updated = pre ++ marker ++ LF :: LF :: trim code ++ LF :: LF :: post.
Proof.
  unfold insert_at_marker. split.
  - destruct (indexOf original marker) as [i|] eqn:Hi; [|done]. intros [= <-].
    apply indexOf_Some_iff in Hi as (Hs & Hlen & Hmin).
    exists (take i original), (drop (i + length marker) original).
    split; [done|]. split.
    + intros a b Hab. rewrite length_take. specialize (Hmin a b Hab). lia.
    + unfold splice_at, slice_to, slice_from. rewrite Hs at 1.
      rewrite app_assoc, take_app_length'; [by rewrite <- app_assoc|].
      rewrite length_app, length_take. lia.
  - intros (pre & post & Hs & Hmin & ->).
    assert (Hi : indexOf original marker = Some (length pre)).
    { apply indexOf_Some_iff. subst original.
      rewrite take_app_length, app_assoc, drop_app_length'
        by (rewrite length_app; lia).
      rewrite <- app_assoc. split; [done|]. split; [|done].
      rewrite !length_app. lia. }
    rewrite Hi. f_equal. unfold splice_at, slice_to, slice_from. subst original.
    rewrite (app_assoc pre marker post), take_app_length', drop_app_length'
      by (rewrite length_app; lia).
    by rewrite <- app_assoc.
Qed.

(** The splice leaves the first occurrence of the marker where it was. *)
Lemma indexOf_splice_same (original marker code : list ascii) (i : nat) :
  indexOf original marker = Some i ->
  indexOf (splice_at (i + length marker) original code) marker = Some i.
Proof.
  intros Hi. apply indexOf_Some_iff in Hi as (Hs & Hlen & Hmin).
  assert (Hpre : take (i + length marker) original = take i original ++ marker).
  { rewrite Hs at 1. rewrite app_assoc, take_app_length'; [done|].
    rewrite length_app, length_take. lia. }
  apply indexOf_Some_iff. unfold splice_at, slice_to, slice_from.
  rewrite Hpre, <- !app_assoc.
  assert (Hli : length (take i original) = i) by (rewrite length_take; lia).
  split; [|split].
  - rewrite take_app_length' by done.
    rewrite (app_assoc (take i original) marker), drop_app_length'
      by (rewrite length_app; lia).
    by rewrite <- app_assoc.
  - rewrite !length_app. cbn [length]. rewrite length_app. cbn [length]. lia.
  - intros a b Hab. destruct (decide (i <= length a)) as [|Hlt]; [done|].
    exfalso. apply (f_equal (take (length a + length marker))) in Hab.
    rewrite (app_assoc a marker b), (take_app_length' (a ++ marker))
      in Hab by (rewrite length_app; lia).
    rewrite (app_assoc (take i original) marker), <- Hpre in Hab.
    rewrite take_app_le in Hab by (rewrite length_take; lia).
    rewrite take_take in Hab.
    replace (Nat.min (length a + length marker) (i + length marker))
      with (length a + length marker) in Hab by lia.
    specialize (Hmin a (drop (length a + length marker) original)).
    rewrite app_assoc, <- Hab, take_drop in Hmin. specialize (Hmin eq_refl). lia.
Qed.

(** X7. A second insertion at the same marker goes right after the marker,
    before the code inserted first: insertions at one zone stack, the newest
    on top, and the text before the marker and after the first insertion
    point stays in place. *)
Theorem insertions_stack (marker original code1 code2 : list ascii) (i : nat) :
  indexOf original marker = Some i ->
  let p := i + length marker in
  exists updated1,
    insert_at_marker marker original code1 = Some updated1
    /\ insert_at_marker marker updated1 code2
       = Some (take p original ++ LF :: LF :: trim code2 ++ LF :: LF ::
               LF :: LF :: trim code1 ++ LF :: LF :: drop p original).
Proof.
  intros Hi p. subst p. exists (splice_at (i + length marker) original (trim code1)).
  unfold insert_at_marker. rewrite Hi. split; [done|].
  rewrite (indexOf_splice_same original marker (trim code1) i Hi).
  f_equal. unfold splice_at, slice_to, slice_from.
  assert (Hp : length (take (i + length marker) original) = i + length marker).
  { rewrite length_take. apply indexOf_bound in Hi. lia. }
  by rewrite take_app_length', drop_app_length'.
Qed.

Lemma insertions_stack_witness :
  insert_at_marker example_marker
    (js "A" ++ LF :: example_marker ++ LF :: LF :: js "one" ++ LF :: LF :: LF :: js "B")
    (js "two")
  = Some (js "A" ++ LF :: example_marker ++ LF :: LF :: js "two" ++ LF :: LF ::
          LF :: LF :: js "one" ++ LF :: LF :: LF :: js "B").
Proof.
  destruct (insertions_stack example_marker example_file (js "one") (js "two") 2)
    as (u & Hu & Hstack); [by vm_compute|].
  vm_compute in Hu. injection Hu as <-. exact Hstack.
Defined.

Lemma diff_nil_inv (A B : list ascii) : generateSemanticDiff A B = [] -> A = B.
Proof.
  unfold generateSemanticDiff. cbv zeta. rewrite diff_lines_nil.
  intros H. by rewrite <- (join_split_lines A), H, join_split_lines.
Qed.

(** X8. A proposal always shows up in its diff: whatever the insertion point
    and the code, the diff between the file and the spliced text has at
    least one entry (the splice adds four line feeds even for empty code). *)
Theorem splice_diff_nonempty (insertionPoint : nat) (original code : list ascii) :
  generateSemanticDiff original (splice_at insertionPoint original code) <> []
  /\ length (splice_at insertionPoint original code)
     = length original + length code + 4.
Proof.
  assert (Hlen : length (splice_at insertionPoint original code)
                 = length original + length code + 4).
  { unfold splice_at, slice_to, slice_from.
    rewrite length_app. cbn [length]. rewrite length_app. cbn [length].
    pose proof (take_drop insertionPoint original) as Htd.
    apply (f_equal length) in Htd. rewrite length_app in Htd. lia. }
  split; [|done]. intros Hnil%diff_nil_inv.
  rewrite <- Hnil in Hlen. lia.
Qed.

Lemma handlers_release_lock_witness :
  held (js "index.js")
    (apply_proposal plain_digest
       (mkEnv (js "secret") (js "t") false false true None (fun _ => true) true)
       (panel_request "apply" "x") test_world).2 = false.
Proof.
  apply (handlers_release_lock plain_digest
           (mkEnv (js "secret") (js "t") false false true None (fun _ => true) true)
           (panel_request "apply" "x") test_world).
  reflexivity.
Defined.

(** ** Token checks *)

Lemma requirePanelAuth_None (env : Env) (req : Request) :
  requirePanelAuth env req = None
  <-> PANEL_TOKEN env <> [] /\ x_panel_token req = Some (PANEL_TOKEN env).
Proof.
  unfold requirePanelAuth.
  destruct (PANEL_TOKEN env) as [|c tok] eqn:Htok; cbn [falsy].
  - split; [done|]. by intros [? _].
  - destruct (x_panel_token req) as [[|d got]|]; cbn [falsy orb or_empty default];
      try (split; [done|]; intros [_ [=]]).
    case_bool_decide as Hne; cbn.
    + split; [done|]. intros [_ [= -> ->]]. by destruct Hne.
    + destruct (decide (d :: got = c :: tok)) as [->|]; [done|by destruct Hne].
Qed.

Lemma requirePanelAuth_status (env : Env) (req : Request) (r : Response) :
  requirePanelAuth env req = Some r -> status r = 401 \/ status r = 500.
Proof.
  unfold requirePanelAuth. repeat case_match; intros [= <-]; cbn; auto.
Qed.

(** X9. A request to [/apply-fix] or [/apply-proposal] that does not carry
    the configured token in [x-panel-token], or any request while no token
    is configured, is answered with 401 or 500 and has no effect at all:
    no file, backup, lock or store row changes. *)
Theorem unauthorized_no_effect (sha256 : list ascii -> list ascii)
    (env : Env) (req : Request) (w : World) :
  ~ (PANEL_TOKEN env <> [] /\ x_panel_token req = Some (PANEL_TOKEN env)) ->
  (exists r, apply_fix sha256 env req w = (Returned r, w)
             /\ (status r = 401 \/ status r = 500))
  /\ (exists r, apply_proposal sha256 env req w = (Returned r, w)
                /\ (status r = 401 \/ status r = 500)).
Proof.
  intros Hbad. rewrite <- requirePanelAuth_None in Hbad.
  unfold apply_fix, apply_proposal.
  destruct (requirePanelAuth env req) as [r|] eqn:Hauth; [|done].
  apply requirePanelAuth_status in Hauth. split; by exists r.
Qed.

Lemma unauthorized_no_effect_witness :
  exists r,
    apply_proposal plain_digest quiet_env
      (mkRequest (Some (js "guess")) (Some (js "index.js")) None
         (Some (js "routes")) (Some (js "x")) (Some (js "i")) (Some (js "apply")) None)
      test_world = (Returned r, test_world)
    /\ (status r = 401 \/ status r = 500).
Proof.
  apply (unauthorized_no_effect plain_digest quiet_env
           (mkRequest (Some (js "guess")) (Some (js "index.js")) None
              (Some (js "routes")) (Some (js "x")) (Some (js "i"))
              (Some (js "apply")) None) test_world).
  intros [_ [=]].
Defined.

Lemma replaceFirst_head (p r s : list ascii) :
  replaceFirst p r (p ++ s) = r ++ s.
Proof.
  destruct (p ++ s) as [|c t] eqn:Hps.
  - apply app_eq_nil in Hps as [-> ->]. cbn. by rewrite app_nil_r.
  - cbn [replaceFirst]. rewrite <- Hps, startsWith_app.
    by rewrite drop_app_length.
Qed.

Lemma replaceFirst_no_match (p r s : list ascii) :
  indexOf s p = None -> replaceFirst p r s = s.
Proof.
  induction s as [|c s IH]; cbn [indexOf replaceFirst].
  - by destruct (startsWith p []).
  - destruct (startsWith p (c :: s)); [done|].
    destruct (indexOf s p); [done|]. intros _. f_equal. by apply IH.
Qed.

(** X10. With a token configured, the panel middleware lets the header
    [Bearer <token>] through, and equally the bare token without the
    [Bearer ] scheme (when the token itself does not contain [Bearer ]): the
    scheme prefix is removed if present, not required. A missing header is
    refused. *)
Theorem bearer_scheme_optional (env : Env) :
  PANEL_TOKEN env <> [] ->
  requirePanelToken env (Some (js "Bearer " ++ PANEL_TOKEN env)) = None
  /\ (indexOf (PANEL_TOKEN env) (js "Bearer ") = None ->
      requirePanelToken env (Some (PANEL_TOKEN env)) = None)
  /\ requirePanelToken env None = Some (fail 401 "Invalid panel token").
Proof.
  intros Htok. unfold requirePanelToken. cbv zeta.
  destruct (PANEL_TOKEN env) as [|c tok] eqn:E; [done|].
  cbn [falsy or_empty default from_option id].
  split; [|split].
  - rewrite replaceFirst_head. cbn [app]. by rewrite bool_decide_eq_false_2 by (by intros H; apply H).
  - intros Hno. rewrite replaceFirst_no_match by done.
    by rewrite bool_decide_eq_false_2 by (by intros H; apply H).
  - cbn. by rewrite bool_decide_eq_true_2.
Qed.

Lemma bearer_scheme_optional_witness :
  requirePanelToken quiet_env (Some (js "Bearer secret")) = None
  /\ requirePanelToken quiet_env (Some (js "secret")) = None.
Proof.
  destruct (bearer_scheme_optional quiet_env) as (H1 & H2 & _); [discriminate|].
  split; [exact H1|]. apply H2. reflexivity.
Defined.

(** ** A held lock *)

(** X12. While the lock of the target file is held, a request changes
    nothing - no file, no backup, no store row, not even an audit row - and
    gets no success response: it is refused by validation or left waiting. *)
Theorem held_lock_blocks (sha256 : list ascii -> list ascii)
    (env : Env) (req : Request) (w : World) :
  held (or_empty (req_targetFile req)) w = true ->
  ((apply_fix sha256 env req w).2 = w
   /\ forall r, (apply_fix sha256 env req w).1 = Returned r -> status r <> 200)
  /\ ((apply_proposal sha256 env req w).2 = w
      /\ forall r, (apply_proposal sha256 env req w).1 = Returned r -> status r <> 200).
Proof.
  intros Hheld. split.
  - unfold apply_fix. cbv zeta.
    destruct (requirePanelAuth env req) as [r0|] eqn:Hauth.
    { split; [done|]. intros r [= <-].
      by destruct (requirePanelAuth_status _ _ _ Hauth) as [-> | ->]. }
    repeat (match goal with
            | |- context [if ?x then mret _ else _] => destruct x eqn:?
            end; [by split; [|intros r [= <-]]|]).
    unfold mbind, M_bind, existsSync. cbv beta iota.
    destruct (negb (bool_decide _)); [by split; [|intros r [= <-]]|].
    unfold withFileLock. by rewrite Hheld.
  - unfold apply_proposal. cbv zeta.
    destruct (requirePanelAuth env req) as [r0|] eqn:Hauth.
    { split; [done|]. intros r [= <-].
      by destruct (requirePanelAuth_status _ _ _ Hauth) as [-> | ->]. }
    repeat (match goal with
            | |- context [if ?x then mret _ else _] => destruct x eqn:?
            end; [by split; [|intros r [= <-]]|]).
    unfold mbind, M_bind, existsSync. cbv beta iota.
    destruct (negb (bool_decide _)); [by split; [|intros r [= <-]]|].
    unfold withFileLock. by rewrite Hheld.
Qed.

Lemma held_lock_blocks_witness :
  (apply_proposal plain_digest quiet_env (panel_request "apply" "x")
     (acquire (js "index.js") test_world)).2
  = acquire (js "index.js") test_world.
Proof.
  apply (held_lock_blocks plain_digest quiet_env (panel_request "apply" "x")
           (acquire (js "index.js") test_world)).
  vm_compute. reflexivity.
Defined.

(** ** Confinement: one file, and backups that stay *)

Global Instance confined_refl (env : Env) (path : list ascii) :
  Reflexive (confined env path).
Proof.
  intros d. split; [done|]. intros b n c Hb Hn. exists b. by rewrite Hn.
Qed.

Lemma confined_intro (env : Env) (path : list ascii) (d d' : Disk) :
  (d_files d' = d_files d \/ exists c, d_files d' = <[path := c]> (d_files d)) ->
  (d_backups d' = d_backups d \/ d_backups d = None
   \/ exists old,
        d_backups d' = Some (<[backup_name env path := old]> (default ∅ (d_backups d)))) ->
  confined env path d d'.
Proof.
  intros Hf Hb. split.
  - intros f Hne. destruct Hf as [->|[c ->]]; [done|]. by rewrite lookup_insert_ne.
  - intros b n c Hd Hn. destruct Hb as [->|[Hnone|[old ->]]]; [|congruence|].
    + exists b. by rewrite Hn.
    + rewrite Hd. cbn. eexists. split; [done|].
      destruct (decide (n = backup_name env path)) as [->|Hne].
      * rewrite lookup_insert_eq. by split; [eexists|].
      * rewrite lookup_insert_ne, Hn by done. by split; [eexists|].
Qed.

Lemma commit_confined {A} (env : Env) (path content : list ascii)
    (k : Backup -> M A) :
  (forall b, ensures eq (k b)) ->
  ensures (confined env path)
    (backupFile env path ≫= λ backup, writeText env path content ≫= λ _, k backup).
Proof.
  intros Hk w. unfold ensures in Hk.
  unfold backupFile, ensureDir, copyFileSync, writeText.
  unfold mbind, M_bind, mret, M_ret.
  destruct w as [fs bk lk st lg]. cbn.
  destruct bk as [b0|]; cbn; [|destruct (mkdir_fails env); cbn];
    destruct (copy_fails env) eqn:Hcopy; cbn;
    try destruct (fs !! path) as [old|] eqn:Hold; cbn;
    try destruct (write_fault env) as [junk|]; cbn;
    rewrite <- ?Hk;
    (apply confined_intro; cbn;
     [first [by left | by right; eexists]
     |first [by left | by right; left
            | right; right; unfold backup_name; by eexists]]).
Qed.

Ltac confined_step :=
  match goal with
  | H : ?x <> ?x |- _ => by destruct H
  | |- Reflexive _ => apply _
  | |- forall _, _ => intros ?
  | |- ensures _ (match ?x with _ => _ end) => destruct x eqn:?
  | |- ensures _ _ =>
      first
        [ apply ensures_ret | apply ensures_throw
        | apply existsSync_frame | apply readText_frame
        | apply tryInsert_frame | apply select_applied_patch_frame
        | apply commit_confined
        | apply ensures_withFileLock
        | apply ensures_bind ]
  end.

Lemma allowlisted_file (f : list ascii) :
  negb (has FILE_ALLOWLIST f) = false -> f = js "index.js".
Proof.
  intros H%negb_false_iff. apply bool_decide_eq_true_1 in H.
  by apply elem_of_singleton in H.
Qed.

Section Confinement.

Variable sha256 : list ascii -> list ascii.

Lemma apply_fix_confined (env : Env) (req : Request) :
  ensures (confined env (js "index.js")) (apply_fix sha256 env req).
Proof.
  unfold apply_fix. cbv zeta.
  destruct (requirePanelAuth env req); [apply ensures_ret; apply _|].
  destruct (falsy (req_targetFile req) || falsy (req_fixType req));
    cbv iota; [apply ensures_ret; apply _|].
  destruct (negb (has FILE_ALLOWLIST (or_empty (req_targetFile req)))) eqn:Hallow;
    cbv iota; [apply ensures_ret; apply _|].
  rewrite (allowlisted_file _ Hallow). unfold apply_fix_locked.
  repeat confined_step.
Qed.

Lemma apply_proposal_confined (env : Env) (req : Request) :
  ensures (confined env (js "index.js")) (apply_proposal sha256 env req).
Proof.
  unfold apply_proposal. cbv zeta.
  destruct (requirePanelAuth env req); [apply ensures_ret; apply _|].
  destruct (falsy (req_targetFile req) || falsy (req_zone req)
            || falsy (req_proposedCode req) || falsy (req_intent req));
    cbv iota; [apply ensures_ret; apply _|].
  destruct (negb (has FILE_ALLOWLIST (or_empty (req_targetFile req)))) eqn:Hallow;
    cbv iota; [apply ensures_ret; apply _|].
  rewrite (allowlisted_file _ Hallow).
  unfold apply_proposal_locked, apply_proposal_at. cbv zeta.
  repeat confined_step.
Qed.

End Confinement.

(** X13. Whatever the request, neither handler changes any file of the
    working directory other than the allowlisted [index.js]. *)
Theorem only_index_js_written (sha256 : list ascii -> list ascii)
    (env : Env) (req : Request) (w : World) (f : list ascii) :
  f <> js "index.js" ->
  files (apply_fix sha256 env req w).2 !! f = files w !! f
  /\ files (apply_proposal sha256 env req w).2 !! f = files w !! f.
Proof.
  intros Hf. split.
  - by apply (apply_fix_confined sha256 env req w).
  - by apply (apply_proposal_confined sha256 env req w).
Qed.

Lemma only_index_js_written_witness :
  files (apply_fix plain_digest quiet_env (panel_request "apply" "x")
           (set_files (<[js "panel.html" := js "x.single()"]> (files test_world))
              test_world)).2 !! js "panel.html"
  = files (set_files (<[js "panel.html" := js "x.single()"]> (files test_world))
             test_world) !! js "panel.html".
Proof.
  refine (proj1 (only_index_js_written plain_digest quiet_env
                   (panel_request "apply" "x")
                   (set_files (<[js "panel.html" := js "x.single()"]> (files test_world))
                      test_world) (js "panel.html") _)).
  discriminate.
Defined.

(** X14. Neither handler removes a backup: every backup that was in the
    backups directory is still there afterwards, and with the content it
    had unless its name is the one of the backup just made (the file name,
    the clock stamp, [.bak]). *)
Theorem backups_stay (sha256 : list ascii -> list ascii)
    (env : Env) (req : Request) (w : World)
    (b : gmap (list ascii) (list ascii)) (n c : list ascii) :
  backups w = Some b -> b !! n = Some c ->
  (exists b', backups (apply_fix sha256 env req w).2 = Some b'
              /\ is_Some (b' !! n)
              /\ (n <> backup_name env (js "index.js") -> b' !! n = Some c))
  /\ (exists b', backups (apply_proposal sha256 env req w).2 = Some b'
                 /\ is_Some (b' !! n)
                 /\ (n <> backup_name env (js "index.js") -> b' !! n = Some c)).
Proof.
  intros Hb Hn. split.
  - by apply (proj2 (apply_fix_confined sha256 env req w) b n c).
  - by apply (proj2 (apply_proposal_confined sha256 env req w) b n c).
Qed.

Lemma backups_stay_witness :
  exists b',
    backups (apply_fix plain_digest quiet_env (panel_request "apply" "x")
               (set_backups (Some {[ js "index.js.old.bak" := js "v0" ]}) test_world)).2
    = Some b'
    /\ is_Some (b' !! js "index.js.old.bak")
    /\ (js "index.js.old.bak" <> backup_name quiet_env (js "index.js") ->
        b' !! js "index.js.old.bak" = Some (js "v0")).
Proof.
  refine (proj1 (backups_stay plain_digest quiet_env (panel_request "apply" "x")
                   (set_backups (Some {[ js "index.js.old.bak" := js "v0" ]}) test_world)
                   {[ js "index.js.old.bak" := js "v0" ]} (js "index.js.old.bak")
                   (js "v0") _ _)).
  - reflexivity.
  - vm_compute. reflexivity.
Defined.

(** ** Audit inserts are best effort *)

Lemma set_store_id (w : World) : set_store (store w) w = w.
Proof. by destruct w. Qed.

Global Instance alike_refl : Reflexive alike.
Proof. by intros w. Qed.

Lemma alike_set_store_audit (w w' : World) (rows rows' : list (Table * Row)) :
  alike w w' ->
  (forall key, omap (has_patch_key key) rows = omap (has_patch_key key) rows') ->
  alike (set_store (store w ++ rows) w) (set_store (store w' ++ rows') w').
Proof.
  intros (Hd & Hl & Hp) Hrows. split; [|split]; [done..|].
  intros key. unfold patch_records in *. cbn. by rewrite !omap_app, Hp, Hrows.
Qed.

Lemma alike_disk (w w' : World) (f : World -> World) :
  alike w w' ->
  (forall v, store (f v) = store v) ->
  (forall v v', disk v = disk v' -> fileLocks v = fileLocks v' ->
                disk (f v) = disk (f v') /\ fileLocks (f v) = fileLocks (f v')) ->
  alike (f w) (f w').
Proof.
  intros (Hd & Hl & Hp) Hst Hf. destruct (Hf w w' Hd Hl) as [Hd' Hl'].
  split; [done|]. split; [done|].
  intros key. unfold patch_records in *. by rewrite !Hst.
Qed.

Section Agreement.

Context {A B : Type}.

Lemma agree_ret (a : A) : agree (mret a : M A) (mret a).
Proof. by intros w w' H. Qed.

Lemma agree_throw (e : Error) : agree (throw e : M A) (throw e).
Proof. by intros w w' H. Qed.

Lemma agree_bind (m m' : M A) (k k' : A -> M B) :
  agree m m' -> (forall a, agree (k a) (k' a)) -> agree (m ≫= k) (m' ≫= k').
Proof.
  intros Hm Hk w w' Hw. destruct (Hm w w' Hw) as [Ho Hw1].
  unfold mbind, M_bind.
  destruct (m w) as [[a|e|] w1], (m' w') as [[a'|e'|] w1']; cbn in Ho, Hw1;
    try discriminate;
    first [injection Ho as <-; first [by apply Hk | by split] | by split].
Qed.

Lemma agree_withFileLock (file : list ascii) (fn fn' : M A) :
  agree fn fn' -> agree (withFileLock file fn) (withFileLock file fn').
Proof.
  intros Hfn w w' Hw. unfold withFileLock, held.
  assert (Hl : fileLocks w = fileLocks w') by apply Hw. rewrite <- Hl.
  destruct (default false (fileLocks w !! file)); [done|].
  assert (Hacq : alike (acquire file w) (acquire file w')).
  { apply (alike_disk w w' (acquire file)); [done|done|].
    intros v v' Hd Hv. unfold acquire, disk in *. cbn. rewrite Hv.
    by injection Hd as -> -> ->. }
  destruct (Hfn _ _ Hacq) as [Ho Hw1].
  destruct (fn (acquire file w)) as [[a|e|] w1],
    (fn' (acquire file w')) as [[a'|e'|] w1']; cbn in Ho, Hw1;
    try discriminate; cbn; (split; [done|]); try done;
    apply (alike_disk w1 w1' (release file)); try done;
    intros v v' Hd Hv; unfold release, disk in *; cbn; rewrite Hv;
    by injection Hd as -> -> ->.
Qed.

End Agreement.

Lemma agree_existsSync (p : list ascii) : agree (existsSync p) (existsSync p).
Proof.
  intros w w' Hw. unfold existsSync. cbn. split; [|done].
  destruct Hw as (Hd & _). by injection Hd as -> _ _.
Qed.

Lemma agree_readText (env env' : Env) (p : list ascii) :
  read_fails env = read_fails env' -> agree (readText env p) (readText env' p).
Proof.
  intros Hr w w' Hw. unfold readText. rewrite <- Hr.
  assert (Hf : files w = files w') by (destruct Hw as (Hd & _); by injection Hd).
  rewrite <- Hf. destruct (read_fails env); [done|]. by destruct (files w !! p).
Qed.

Lemma alike_audit_row (w w' : World) (t : Table) (r : Row) :
  t <> applied_patches -> alike w w' ->
  alike (set_store (store w ++ [(t, r)]) w) w'
  /\ alike w (set_store (store w' ++ [(t, r)]) w').
Proof.
  intros Ht (Hd & Hl & Hp).
  split; (split; [done|]; split; [done|]); intros key;
    unfold patch_records in *; cbn [store set_store];
    rewrite omap_app; cbn [omap list_omap];
    rewrite has_patch_key_other, app_nil_r by done; apply Hp.
Qed.

Lemma agree_tryInsert_audit (env env' : Env) (t : Table) (r : Row) :
  t <> applied_patches -> agree (tryInsert env t r) (tryInsert env' t r).
Proof.
  intros Ht w w' Hw. unfold tryInsert.
  destruct (insert_ok env t), (insert_ok env' t); cbn; (split; [done|]).
  - by apply alike_set_store_audit.
  - by apply alike_audit_row.
  - by apply alike_audit_row.
  - done.
Qed.

Lemma agree_tryInsert_same (env env' : Env) (t : Table) (r : Row) :
  insert_ok env t = insert_ok env' t -> agree (tryInsert env t r) (tryInsert env' t r).
Proof.
  intros Ht w w' Hw. unfold tryInsert. rewrite <- Ht.
  destruct (insert_ok env t); cbn; (split; [done|]); [|done].
  by apply alike_set_store_audit.
Qed.

Lemma agree_select (env env' : Env) (key : list ascii) :
  select_ok env = select_ok env' ->
  agree (select_applied_patch env key) (select_applied_patch env' key).
Proof.
  intros Hs w w' Hw. unfold select_applied_patch. rewrite <- Hs.
  destruct (select_ok env); cbn; (split; [|done]); [|done].
  destruct Hw as (_ & _ & Hp). specialize (Hp key). unfold patch_records in Hp.
  by rewrite Hp.
Qed.

Lemma alike_fields (w w' : World) :
  alike w w' ->
  files w = files w' /\ backups w = backups w' /\ fslog w = fslog w'
  /\ fileLocks w = fileLocks w'.
Proof. intros (Hd & Hl & _). by injection Hd as -> -> ->. Qed.

Lemma alike_intro (w w' v v' : World) :
  alike w w' -> store v = store w -> store v' = store w' ->
  files v = files v' -> backups v = backups v' -> fslog v = fslog v' ->
  fileLocks v = fileLocks v' -> alike v v'.
Proof.
  intros (_ & _ & Hp) Hs Hs' Hf Hb Hg Hl. split; [|split; [done|]].
  - unfold disk. by rewrite Hf, Hb, Hg.
  - intros key. specialize (Hp key). unfold patch_records in *. by rewrite Hs, Hs'.
Qed.

Lemma agree_backupFile (env env' : Env) (p : list ascii) :
  nowStamp env = nowStamp env' -> mkdir_fails env = mkdir_fails env' ->
  copy_fails env = copy_fails env' ->
  agree (backupFile env p) (backupFile env' p).
Proof.
  intros Hn Hm Hc w w' Hw.
  destruct (alike_fields w w' Hw) as (Hf & Hb & Hg & Hl).
  unfold backupFile, ensureDir, copyFileSync, mbind, M_bind, mret, M_ret.
  rewrite <- Hn, <- Hm, <- Hc, <- Hb.
  destruct (backups w) as [b0|] eqn:Hbk; [|destruct (mkdir_fails env)];
    cbn; rewrite <- ?Hb, ?Hbk, <- ?Hf; cbn;
    destruct (copy_fails env); cbn; try (by split);
    try (split; [done|]; by apply (alike_intro w w'));
    destruct (files w !! p) as [c|]; cbn;
    (split; [done|]); apply (alike_intro w w'); cbn; congruence.
Qed.

Lemma agree_writeText (env env' : Env) (p c : list ascii) :
  write_fault env = write_fault env' ->
  agree (writeText env p c) (writeText env' p c).
Proof.
  intros Hwf w w' Hw.
  destruct (alike_fields w w' Hw) as (Hf & Hb & Hg & Hl).
  unfold writeText. rewrite <- Hwf. cbv zeta.
  destruct (write_fault env); cbn; (split; [done|]);
    apply (alike_intro w w'); cbn; congruence.
Qed.

Ltac agree_step :=
  match goal with
  | H : ?x <> ?x |- _ => by destruct H
  | |- forall _, _ => intros ?
  | |- agree (match ?x with _ => _ end) (match ?x with _ => _ end) =>
      destruct x eqn:?
  | |- agree _ _ =>
      first
        [ apply agree_ret | apply agree_throw | apply agree_existsSync
        | apply agree_readText; assumption
        | apply agree_tryInsert_audit; discriminate
        | apply agree_tryInsert_same; assumption
        | apply agree_select; assumption
        | apply agree_backupFile; assumption
        | apply agree_writeText; assumption
        | apply agree_withFileLock
        | apply agree_bind ]
  end.

Section BestEffort.

Variable sha256 : list ascii -> list ascii.

Lemma requirePanelAuth_same (env env' : Env) (req : Request) :
  PANEL_TOKEN env = PANEL_TOKEN env' ->
  requirePanelAuth env' req = requirePanelAuth env req.
Proof. intros H. unfold requirePanelAuth. by rewrite H. Qed.

Lemma apply_fix_agree (env env' : Env) (req : Request) :
  same_but_audit env env' ->
  agree (apply_fix sha256 env req) (apply_fix sha256 env' req).
Proof.
  intros (Ht & Hn & Hr & Hm & Hc & Hw & Hs & Hi).
  unfold apply_fix, apply_fix_locked. cbv zeta.
  rewrite (requirePanelAuth_same env env' req Ht).
  repeat agree_step.
Qed.

Lemma apply_proposal_agree (env env' : Env) (req : Request) :
  same_but_audit env env' ->
  agree (apply_proposal sha256 env req) (apply_proposal sha256 env' req).
Proof.
  intros (Ht & Hn & Hr & Hm & Hc & Hw & Hs & Hi).
  unfold apply_proposal, apply_proposal_locked, apply_proposal_at. cbv zeta.
  rewrite (requirePanelAuth_same env env' req Ht).
  repeat agree_step.
Qed.

End BestEffort.

(** X15. Whether the audit inserts ([fix_attempts], [code_proposals],
    [file_snapshots]) succeed or fail makes no difference to what either
    handler answers, nor to the files, the backups and the write calls it
    leaves: all else equal, the outcome and the disk are the same. *)
Theorem audit_is_best_effort (sha256 : list ascii -> list ascii)
    (env env' : Env) (req : Request) (w : World) :
  same_but_audit env env' ->
  ((apply_fix sha256 env req w).1 = (apply_fix sha256 env' req w).1
   /\ disk (apply_fix sha256 env req w).2 = disk (apply_fix sha256 env' req w).2)
  /\ ((apply_proposal sha256 env req w).1 = (apply_proposal sha256 env' req w).1
      /\ disk (apply_proposal sha256 env req w).2
         = disk (apply_proposal sha256 env' req w).2).
Proof.
  intros Henv. split.
  - destruct (apply_fix_agree sha256 env env' req Henv w w) as (Ho & Hd & _);
      by try split.
  - destruct (apply_proposal_agree sha256 env env' req Henv w w) as (Ho & Hd & _);
      by try split.
Qed.

Lemma audit_is_best_effort_witness :
  (apply_proposal plain_digest quiet_env (panel_request "apply" "x") test_world).1
  = (apply_proposal plain_digest
       (mkEnv (js "secret") (js "2025-01-01T00-00-00-000Z") false false false None
          (fun t => bool_decide (t = applied_patches)) true)
       (panel_request "apply" "x") test_world).1.
Proof.
  refine (proj1 (proj2 (audit_is_best_effort plain_digest quiet_env
            (mkEnv (js "secret") (js "2025-01-01T00-00-00-000Z") false false false
               None (fun t => bool_decide (t = applied_patches)) true)
            (panel_request "apply" "x") test_world _))).
  repeat split.
Defined.

(** ** What a successful [/apply-fix] leaves *)

Lemma runFix_unchanged (fixType original : list ascii) :
  changed (runFix fixType original) = false ->
  updated (runFix fixType original) = original.
Proof.
  unfold runFix. case_decide; [|done].
  cbn [fix_replace_single_with_maybeSingle changed updated].
  intros Hch%bool_decide_eq_false_1.
  by destruct (decide (replaceAll single_call maybeSingle_call original = original)).
Qed.

(** X16. An accepted [/apply-fix] in apply mode, on a free lock and with no
    system call failing, answers [applied: true] with the backup it made;
    the backup holds the content the file had, the file holds the fixer's
    output, and the copy comes before the write. The handler does not look
    at [changed]: when the fixer found nothing to change, the backup is made
    all the same and the file is rewritten with the content it had. *)
Theorem apply_fix_applies (sha256 : list ascii -> list ascii)
    (env : Env) (req : Request) (w : World) (original : list ascii) :
  let file := or_empty (req_targetFile req) in
  let result := runFix (or_empty (req_fixType req)) original in
  let name := backup_name env file in
  accepted_fix env req -> healthy env ->
  held file w = false -> files w !! file = Some original ->
  exists w',
    apply_fix sha256 env req w
    = (Returned (ok (FixApplied (mkBackup name (BACKUPS_DIR ++ js "/" ++ name))
                       (summary result))), w')
    /\ files w' = <[file := updated result]> (files w)
    /\ backups w' = Some (<[name := original]> (default ∅ (backups w)))
    /\ fslog w' = fslog w ++ [EvCopy file name original; EvWrite file (updated result)]
    /\ held file w' = false
    /\ (changed result = false -> files w' = files w).
Proof.
  intros file result name (Hauth & Hf1 & Hf2 & Hfile & Hfix & Hmode)
    (Hrd & Hmk & Hcp & Hwr & _ & _) Hfree Hcontent.
  subst file result name. unfold apply_fix. cbv zeta.
  rewrite Hauth, Hf1, Hf2, Hfile, Hfix, Hmode.
  cbn [orb negb default from_option id].
  change (valid_mode (js "apply")) with true. cbn [negb].
  unfold mbind at 1, M_bind at 1, existsSync. cbv beta iota.
  rewrite Hcontent. rewrite bool_decide_eq_true_2 by done. cbn [negb].
  unfold withFileLock. rewrite Hfree.
  unfold apply_fix_locked.
  unfold mbind at 1, M_bind at 1, readText. rewrite Hrd.
  destruct w as [fs bk lk st lg].
  cbn [files acquire set_fileLocks backups fileLocks] in *. rewrite Hcontent.
  unfold mbind at 1, M_bind at 1, tryInsert.
  destruct (insert_ok env fix_attempts); cbv beta iota;
    rewrite decide_False by done;
    unfold mbind, M_bind, tryInsert, backupFile, ensureDir, copyFileSync,
      writeText, mbind, M_bind, mret, M_ret, backup_name;
    rewrite Hmk, Hcp, Hwr;
    destruct (insert_ok env applied_patches), bk as [b0|]; cbn;
    rewrite Hcontent; cbn;
    (eexists; split; [reflexivity|]); cbn;
    (split; [done|]); (split; [done|]);
    (split; [by rewrite <- app_assoc|]);
    (split; [unfold held; cbn; by rewrite lookup_delete_eq|]);
    intros Hch; rewrite (runFix_unchanged _ _ Hch); by apply insert_id.
Qed.

Lemma apply_fix_applies_witness :
  exists w',
    apply_fix plain_digest quiet_env (panel_request "apply" "x")
      (set_files {[ js "index.js" := js "db.maybeSingle()" ]} test_world)
    = (Returned (ok (FixApplied
                       (mkBackup (js "index.js.2025-01-01T00-00-00-000Z.bak")
                          (js "fix-backups/index.js.2025-01-01T00-00-00-000Z.bak"))
                       (js "No .single( usage found."))), w')
    /\ backups w'
       = Some {[ js "index.js.2025-01-01T00-00-00-000Z.bak" := js "db.maybeSingle()" ]}
    /\ files w' = {[ js "index.js" := js "db.maybeSingle()" ]}.
Proof.
  destruct (apply_fix_applies plain_digest quiet_env (panel_request "apply" "x")
              (set_files {[ js "index.js" := js "db.maybeSingle()" ]} test_world)
              (js "db.maybeSingle()"))
    as (w' & Hrun & _ & Hb & _ & _ & Hsame);
    [repeat split; vm_compute; reflexivity..|].
  exists w'. split; [exact Hrun|]. split; [exact Hb|].
  apply Hsame. vm_compute. reflexivity.
Defined.

(** ** The paths of [/apply-proposal] *)

Section ProposalPaths.

Variable sha256 : list ascii -> list ascii.

(** A validated request on a free lock, with the file readable, runs the
    rest of the guarded body on the text read. *)
Lemma apply_proposal_enters_locked (env : Env) (req : Request) (w : World)
    (original : list ascii) :
  validated env req -> read_fails env = false ->
  held (or_empty (req_targetFile req)) w = false ->
  files w !! or_empty (req_targetFile req) = Some original ->
  apply_proposal sha256 env req w
  = match
      (match INSERTION_ZONES (or_empty (req_zone req)) with
       | OwnZone marker =>
           match indexOf original marker with
           | None => mret (fail 400 "Insertion marker not found")
           | Some idx =>
               apply_proposal_at sha256 env (or_empty (req_targetFile req))
                 (or_empty (req_zone req)) (or_empty (req_proposedCode req))
                 (or_empty (req_intent req))
                 (default (js "dry-run") (req_mode req))
                 (default (js "MLearning") (req_project req))
                 (or_empty (req_targetFile req)) original marker idx
           end
       | Inherited =>
           match indexOf original (js "undefined") with
           | None => mret (fail 400 "Insertion marker not found")
           | Some _ =>
               throw (TypeError (js "Cannot read properties of undefined (reading 'length')"))
           end
       | NoZone =>
           throw (TypeError (js "Cannot read properties of undefined (reading 'marker')"))
       end) (acquire (or_empty (req_targetFile req)) w)
    with
    | (Polling, w') => (Polling, w')
    | (o, w') => (o, release (or_empty (req_targetFile req)) w')
    end.
Proof.
  intros (Hauth & Hf1 & Hf2 & Hf3 & Hf4 & Hfile & Hzone & Hmode) Hread Hfree Hcontent.
  unfold apply_proposal. cbv zeta.
  rewrite Hauth, Hf1, Hf2, Hf3, Hf4, Hfile, Hmode. cbn [orb negb].
  rewrite bool_decide_eq_false_2 by done.
  unfold mbind at 1, M_bind at 1, existsSync. cbv beta iota.
  rewrite Hcontent. rewrite bool_decide_eq_true_2 by done. cbn [negb].
  unfold withFileLock. rewrite Hfree.
  unfold apply_proposal_locked, mbind at 1, M_bind at 1, readText.
  rewrite Hread. cbn [files acquire set_fileLocks]. by rewrite Hcontent.
Qed.

Lemma release_acquire (file : list ascii) (w : World) :
  store (release file (acquire file w)) = store w
  /\ disk (release file (acquire file w)) = disk w
  /\ held file (release file (acquire file w)) = false.
Proof.
  repeat split. unfold held, release, acquire. cbn. by rewrite lookup_delete_eq.
Qed.

(** The preview of a proposal: the two audit rows, then the answer. *)
Lemma apply_proposal_at_preview (env : Env)
    (targetFile zone code intent project path original marker : list ascii)
    (idx : nat) (w : World) :
  (apply_proposal_at sha256 env targetFile zone code intent (js "dry-run")
     project path original marker idx w).1
  = Returned (ok (ProposalPreview targetFile zone intent
                    (proposal_hash sha256 targetFile zone intent (trim code))
                    (generateSemanticDiff original
                       (splice_at (idx + length marker) original (trim code))))).
Proof.
  unfold apply_proposal_at. cbv zeta. rewrite decide_True by done.
  unfold mbind, M_bind, tryInsert.
  by destruct (insert_ok env code_proposals), (insert_ok env file_snapshots).
Qed.

(** The answer of a first apply in a healthy environment. *)
Lemma apply_proposal_at_applied (env : Env)
    (targetFile zone code intent project path original marker : list ascii)
    (idx : nat) (w : World) :
  healthy env ->
  files w !! path = Some original ->
  patch_records (proposal_hash sha256 targetFile zone intent (trim code)) w = [] ->
  (apply_proposal_at sha256 env targetFile zone code intent (js "apply")
     project path original marker idx w).1
  = Returned (ok (ProposalApplied targetFile zone intent
                    (proposal_hash sha256 targetFile zone intent (trim code))
                    (mkBackup (backup_name env path)
                       (BACKUPS_DIR ++ js "/" ++ backup_name env path))
                    (length (generateSemanticDiff original
                               (splice_at (idx + length marker) original
                                  (trim code)))))).
Proof.
  intros (_ & Hmk & Hcp & Hwr & Hsel & Hins) Hfile Hnone.
  unfold apply_proposal_at. cbv zeta.
  rewrite decide_False by done.
  unfold mbind, M_bind, tryInsert, select_applied_patch, backupFile,
    ensureDir, copyFileSync, writeText, mbind, M_bind, mret, M_ret, backup_name.
  rewrite Hsel, Hmk, Hcp, Hwr, Hins. unfold patch_records in Hnone.
  destruct w as [fs bk lk st lg]. cbn [store files backups] in Hfile, Hnone.
  destruct (insert_ok env code_proposals), (insert_ok env file_snapshots);
    cbn [store set_store];
    rewrite ?omap_app, Hnone; cbn [omap list_omap app];
    rewrite ?has_patch_key_other by done; cbn [maybeSingle app];
    rewrite bool_decide_eq_false_2 by (by intros [? ?]);
    destruct bk as [b|]; cbn; rewrite Hfile; cbn; reflexivity.
Qed.

End ProposalPaths.

(** X17. When the marker of the zone is not in the file, a validated
    [/apply-proposal] request - preview or apply - is answered 400
    "Insertion marker not found" before anything is recorded: no audit row,
    no backup, no write, and the lock is released. *)
Theorem marker_absent_leaves_no_trace (sha256 : list ascii -> list ascii)
    (env : Env) (req : Request) (w : World) (original marker : list ascii) :
  let file := or_empty (req_targetFile req) in
  validated env req -> read_fails env = false ->
  held file w = false -> files w !! file = Some original ->
  INSERTION_ZONES (or_empty (req_zone req)) = OwnZone marker ->
  indexOf original marker = None ->
  let run := apply_proposal sha256 env req w in
  run.1 = Returned (fail 400 "Insertion marker not found")
  /\ store run.2 = store w /\ disk run.2 = disk w /\ held file run.2 = false.
Proof.
  intros file Hval Hread Hfree Hcontent Hzone Hnone. subst file. cbv zeta.
  rewrite (apply_proposal_enters_locked sha256 env req w original Hval Hread
             Hfree Hcontent).
  rewrite Hzone, Hnone. cbn [mret M_ret fst snd].
  split; [done|]. apply release_acquire.
Qed.

Lemma marker_absent_leaves_no_trace_witness :
  (apply_proposal plain_digest quiet_env (panel_request "apply" "x")
     (set_files {[ js "index.js" := js "no markers here" ]} test_world)).1
  = Returned (fail 400 "Insertion marker not found").
Proof.
  refine (proj1 (marker_absent_leaves_no_trace plain_digest quiet_env
                   (panel_request "apply" "x")
                   (set_files {[ js "index.js" := js "no markers here" ]} test_world)
                   (js "no markers here") ROUTES_MARKER _ _ _ _ _ _));
    try (repeat split; vm_compute; reflexivity).
  repeat split; try (vm_compute; reflexivity). vm_compute. discriminate.
Defined.

(** X18. A zone name that [INSERTION_ZONES] inherits from [Object.prototype]
    ([constructor], [toString], ...) passes the unknown-zone check. The
    guarded body then searches the file for the text [undefined]: without
    it the answer is 400 "Insertion marker not found", with it the body
    throws a TypeError. Either way nothing is recorded or written and the
    lock is released. *)
Theorem inherited_zone_name (sha256 : list ascii -> list ascii)
    (env : Env) (req : Request) (w : World) (original : list ascii) :
  let file := or_empty (req_targetFile req) in
  validated env req -> read_fails env = false ->
  held file w = false -> files w !! file = Some original ->
  INSERTION_ZONES (or_empty (req_zone req)) = Inherited ->
  let run := apply_proposal sha256 env req w in
  run.1 = (if includes original (js "undefined")
           then Threw (TypeError (js "Cannot read properties of undefined (reading 'length')"))
           else Returned (fail 400 "Insertion marker not found"))
  /\ store run.2 = store w /\ disk run.2 = disk w /\ held file run.2 = false.
Proof.
  intros file Hval Hread Hfree Hcontent Hzone. subst file. cbv zeta.
  rewrite (apply_proposal_enters_locked sha256 env req w original Hval Hread
             Hfree Hcontent).
  rewrite Hzone. unfold includes.
  destruct (indexOf original (js "undefined")) as [i|]; cbn [mret M_ret throw fst snd].
  - rewrite bool_decide_eq_true_2 by done. split; [done|]. apply release_acquire.
  - rewrite bool_decide_eq_false_2 by (by intros [? ?]).
    split; [done|]. apply release_acquire.
Qed.

Lemma inherited_zone_name_witness :
  (apply_proposal plain_digest quiet_env
     (mkRequest (Some (js "secret")) (Some (js "index.js")) None
        (Some (js "constructor")) (Some (js "x")) (Some (js "i")) None None)
     (set_files {[ js "index.js" := js "let a = undefined;" ]} test_world)).1
  = Threw (TypeError (js "Cannot read properties of undefined (reading 'length')")).
Proof.
  refine (proj1 (inherited_zone_name plain_digest quiet_env
                   (mkRequest (Some (js "secret")) (Some (js "index.js")) None
                      (Some (js "constructor")) (Some (js "x")) (Some (js "i"))
                      None None)
                   (set_files {[ js "index.js" := js "let a = undefined;" ]} test_world)
                   (js "let a = undefined;") _ _ _ _ _));
    try (vm_compute; reflexivity).
  repeat split; try (vm_compute; reflexivity). vm_compute. discriminate.
Defined.

(** X19. What the preview shows is what the apply does: for an accepted
    proposal on a ready file, the preview answers with the proposal hash and
    the diff between the file and the spliced text; the apply (healthy
    environment, no record yet) answers with the same hash and the number of
    entries of that diff, and leaves the spliced text in the file. *)
Theorem preview_matches_apply (sha256 : list ascii -> list ascii)
    (env : Env) (req : Request) (w : World)
    (original marker : list ascii) (idx : nat) :
  let file := or_empty (req_targetFile req) in
  let zone := or_empty (req_zone req) in
  let intent := or_empty (req_intent req) in
  let code := trim (or_empty (req_proposedCode req)) in
  let hash := proposal_hash sha256 file zone intent code in
  let updated := splice_at (idx + length marker) original code in
  let diff := generateSemanticDiff original updated in
  accepted env req marker -> ready w file original marker idx ->
  healthy env -> patch_records hash w = [] ->
  (apply_proposal sha256 env (with_mode req (js "dry-run")) w).1
  = Returned (ok (ProposalPreview file zone intent hash diff))
  /\ (apply_proposal sha256 env req w).1
     = Returned (ok (ProposalApplied file zone intent hash
                       (mkBackup (backup_name env file)
                          (BACKUPS_DIR ++ js "/" ++ backup_name env file))
                       (length diff)))
  /\ files (apply_proposal sha256 env req w).2 !! file = Some updated.
Proof.
  intros file zone intent code hash updated diff Hacc Hready Hhealthy Hnone.
  subst file zone intent code hash updated diff.
  assert (Hread : read_fails env = false) by apply Hhealthy.
  pose proof Hready as (Hfree & Hfile & Hidx).
  pose proof Hacc as (Hauth & Hf1 & Hf2 & Hf3 & Hf4 & Hallow & Hzone & Hmode).
  split; [|split].
  - assert (Hval : validated env (with_mode req (js "dry-run"))).
    { unfold validated.
      cbn [with_mode req_targetFile req_zone req_proposedCode req_intent req_mode].
      split; [exact Hauth|]. repeat (split; [done|]).
      split; [by rewrite Hzone|done]. }
    rewrite (apply_proposal_enters_locked sha256 env _ w original Hval Hread
               Hfree Hfile).
    cbn [with_mode req_zone req_targetFile req_proposedCode req_intent req_mode
         req_project default from_option id].
    rewrite Hzone, Hidx.
    pose proof (apply_proposal_at_preview sha256 env (or_empty (req_targetFile req))
                  (or_empty (req_zone req)) (or_empty (req_proposedCode req))
                  (or_empty (req_intent req))
                  (default (js "MLearning") (req_project req))
                  (or_empty (req_targetFile req)) original marker idx
                  (acquire (or_empty (req_targetFile req)) w)) as Hprev.
    destruct (apply_proposal_at _ _ _ _ _ _ _ _ _ _ _ _ _) as [o w1].
    cbn in Hprev. by subst o.
  - rewrite (apply_proposal_enters sha256 env req w original marker idx Hacc
               Hread Hready).
    pose proof (apply_proposal_at_applied sha256 env (or_empty (req_targetFile req))
                  (or_empty (req_zone req)) (or_empty (req_proposedCode req))
                  (or_empty (req_intent req))
                  (default (js "MLearning") (req_project req))
                  (or_empty (req_targetFile req)) original marker idx
                  (acquire (or_empty (req_targetFile req)) w) Hhealthy Hfile Hnone)
      as Happ.
    destruct (apply_proposal_at _ _ _ _ _ _ _ _ _ _ _ _ _) as [o w1].
    cbn in Happ. by subst o.
  - rewrite (apply_proposal_enters sha256 env req w original marker idx Hacc
               Hread Hready).
    destruct (apply_proposal_at_fresh sha256 env (or_empty (req_targetFile req))
                (or_empty (req_zone req)) (or_empty (req_proposedCode req))
                (or_empty (req_intent req))
                (default (js "MLearning") (req_project req))
                (or_empty (req_targetFile req)) original marker idx
                (acquire (or_empty (req_targetFile req)) w) Hhealthy Hfile Hnone)
      as (b & w1 & -> & Hfiles & _).
    cbn. rewrite Hfiles. apply lookup_insert_eq.
Qed.

Lemma preview_matches_apply_witness :
  files (apply_proposal plain_digest quiet_env (panel_request "apply" " ok() ")
           test_world).2 !! js "index.js"
  = Some (splice_at (13 + length ROUTES_MARKER) index_js (js "ok()")).
Proof.
  refine (proj2 (proj2 (preview_matches_apply plain_digest quiet_env
                          (panel_request "apply" " ok() ") test_world index_js
                          ROUTES_MARKER 13 _ _ _ _)));
    repeat split; vm_compute; reflexivity.
Defined.

(** ** The auto-apply decision and its explanation *)

Section DecisionProps.

Variable sha256 : list ascii -> list ascii.
Variable show_number : spec_float -> list ascii.

Lemma reasons_nil_iff (c : spec_float) (a : bool) (f t : list ascii) :
  decision_reasons show_number c a f t = [] <-> canAutoApply c a f t = true.
Proof.
  unfold decision_reasons, canAutoApply.
  destruct a, (SFltb c AUTO_APPLY_CONFIDENCE_THRESHOLD), (has FIX_ALLOWLIST f),
    (has FILE_ALLOWLIST t); cbn; split; congruence.
Qed.

(** X20. When a verified solution is found, the route's verdict and its
    explanation agree, whatever the stored values (a NaN score included):
    "yes" comes with "All criteria satisfied." and only for a solution
    marked [auto_applicable: true] with an allowlisted fix type and target
    file; "no" comes with a list of reasons that is never empty. *)
Theorem decision_explained (lookup : list ascii -> QueryResult)
    (req : DecisionRequest) (data : Solution) :
  falsy (d_tool req) = false -> falsy (d_message req) = false ->
  falsy (d_fixType req) = false ->
  lookup (buildSignature sha256 (d_tool req) (d_message req)) = QRow data ->
  exists d c a e,
    auto_apply_decision sha256 show_number lookup req
    = (200, Decision d c a (or_empty (d_fixType req))
              (default (js "index.js") (d_targetFile req)) e)
    /\ ((d = true /\ e = AllSatisfied /\ auto_applicable data = Some true
         /\ or_empty (d_fixType req) ∈ FIX_ALLOWLIST
         /\ default (js "index.js") (d_targetFile req) ∈ FILE_ALLOWLIST)
        \/ (d = false /\ exists rs, e = Reasons rs /\ rs <> [])).
Proof.
  intros Ht Hm Hf Hrow. unfold auto_apply_decision. cbv zeta.
  rewrite Ht, Hm, Hf, Hrow. cbn [orb].
  set (c := default (S754_zero false) (confidence_score data)).
  set (a := bool_decide (auto_applicable data = Some true)).
  set (f := or_empty (d_fixType req)).
  set (t := default (js "index.js") (d_targetFile req)).
  exists (canAutoApply c a f t), c, a,
    (if canAutoApply c a f t then AllSatisfied
     else Reasons (decision_reasons show_number c a f t)).
  split; [done|].
  destruct (canAutoApply c a f t) eqn:Hd.
  - left. unfold canAutoApply, has in Hd.
    destruct a eqn:Ha; [|done]. apply bool_decide_eq_true_1 in Ha.
    destruct (SFltb c AUTO_APPLY_CONFIDENCE_THRESHOLD); [done|].
    repeat case_bool_decide; cbn in Hd; try done.
  - right. split; [done|]. eexists. split; [done|].
    intros Hnil%reasons_nil_iff. congruence.
Qed.

(** X21. With everything else passing, a score below the threshold - or a
    missing score, which counts as 0 - turns the verdict to "no" with
    exactly one reason, the one about the confidence. *)
Theorem low_confidence_is_the_reason (lookup : list ascii -> QueryResult)
    (req : DecisionRequest) (data : Solution) :
  let c := default (S754_zero false) (confidence_score data) in
  let f := or_empty (d_fixType req) in
  let t := default (js "index.js") (d_targetFile req) in
  falsy (d_tool req) = false -> falsy (d_message req) = false ->
  falsy (d_fixType req) = false ->
  lookup (buildSignature sha256 (d_tool req) (d_message req)) = QRow data ->
  auto_applicable data = Some true ->
  f ∈ FIX_ALLOWLIST -> t ∈ FILE_ALLOWLIST ->
  SFltb c AUTO_APPLY_CONFIDENCE_THRESHOLD = true ->
  auto_apply_decision sha256 show_number lookup req
  = (200, Decision false c true f t
            (Reasons [js "Confidence " ++ show_number c ++ js " < "
                        ++ show_number AUTO_APPLY_CONFIDENCE_THRESHOLD])).
Proof.
  intros c f t Ht Hm Hf Hrow Hauto Hfix Hfile Hlow. subst c f t.
  unfold auto_apply_decision. cbv zeta.
  rewrite Ht, Hm, Hf, Hrow. cbn [orb].
  unfold canAutoApply, decision_reasons, has.
  rewrite Hauto, Hlow. rewrite !bool_decide_eq_true_2 by done. reflexivity.
Qed.

End DecisionProps.

Lemma decision_explained_witness :
  exists d c a e,
    auto_apply_decision plain_digest (fun _ => js "n")
      (fun _ => QRow (mkSolution None (Some true)))
      (mkDecisionRequest (Some (js "npm")) (Some (js "boom"))
         (Some (js "replace_single_with_maybeSingle")) None)
    = (200, Decision d c a (js "replace_single_with_maybeSingle") (js "index.js") e)
    /\ ((d = true /\ e = AllSatisfied /\ Some true = Some true
         /\ js "replace_single_with_maybeSingle" ∈ FIX_ALLOWLIST
         /\ js "index.js" ∈ FILE_ALLOWLIST)
        \/ (d = false /\ exists rs, e = Reasons rs /\ rs <> [])).
Proof.
  apply (decision_explained plain_digest (fun _ => js "n")
           (fun _ => QRow (mkSolution None (Some true)))
           (mkDecisionRequest (Some (js "npm")) (Some (js "boom"))
              (Some (js "replace_single_with_maybeSingle")) None)
           (mkSolution None (Some true))); reflexivity.
Defined.

Lemma low_confidence_is_the_reason_witness :
  auto_apply_decision plain_digest (fun _ => js "n")
    (fun _ => QRow (mkSolution None (Some true)))
    (mkDecisionRequest (Some (js "npm")) (Some (js "boom"))
       (Some (js "replace_single_with_maybeSingle")) None)
  = (200, Decision false (S754_zero false) true
            (js "replace_single_with_maybeSingle") (js "index.js")
            (Reasons [js "Confidence n < n"])).
Proof.
  apply (low_confidence_is_the_reason plain_digest (fun _ => js "n")
           (fun _ => QRow (mkSolution None (Some true)))
           (mkDecisionRequest (Some (js "npm")) (Some (js "boom"))
              (Some (js "replace_single_with_maybeSingle")) None)
           (mkSolution None (Some true)));
    try reflexivity; by apply elem_of_singleton.
Defined.

(** ** Introspection *)

Lemma introspect_loop_spec (env : Env) (l : list (list ascii)) (w : World) :
  NoDup l -> read_fails env = false ->
  introspect_loop env l w
  = (Returned
       match files w !! js "index.js" with
       | Some txt =>
           if bool_decide (js "index.js" ∈ l)
           then [mkFileReport (js "index.js") (utf8_length txt) (marker_reports txt)]
           else []
       | None => []
       end, w).
Proof.
  intros Hnd Hread. induction l as [|f l IH]; cbn [introspect_loop].
  { rewrite bool_decide_eq_false_2 by (by intros ?%elem_of_nil).
    by destruct (files w !! js "index.js"). }
  apply NoDup_cons in Hnd as [Hf Hnd]. specialize (IH Hnd).
  unfold mbind at 1, M_bind at 1, existsSync. cbv beta iota.
  destruct (decide (f = js "index.js")) as [->|Hne].
  - change (has FILE_ALLOWLIST (js "index.js")) with true. cbn [andb].
    destruct (files w !! js "index.js") as [txt|] eqn:Htxt.
    + rewrite bool_decide_eq_true_2 by done.
      unfold mbind, M_bind, readText. rewrite Hread, Htxt.
      fold (introspect_loop env l). rewrite IH.
      rewrite (bool_decide_eq_false_2 (js "index.js" ∈ l)) by done.
      by rewrite bool_decide_eq_true_2 by (apply elem_of_cons; by left).
    + rewrite bool_decide_eq_false_2 by (by intros [? ?]). by rewrite IH.
  - replace (has FILE_ALLOWLIST f) with false; cbn [andb].
    + rewrite IH. destruct (files w !! js "index.js"); [|done].
      rewrite (bool_decide_ext (js "index.js" ∈ f :: l) (js "index.js" ∈ l)); [done|].
      rewrite elem_of_cons. split; [|auto]. by intros [?|?].
    + symmetry. apply bool_decide_eq_false_2. by intros ?%elem_of_singleton.
Qed.

(** X22. [/introspect-app] reports at most one file, [index.js], with the
    UTF-8 size of its text and, for each of the two zones, whether its
    marker occurs in it; and it reports it only when the file exists and
    its name is among the first 200 entries of the directory listing.
    Nothing is changed. *)
Theorem introspect_reports_index_js (env : Env) (listing : list (list ascii))
    (w : World) :
  NoDup listing -> read_fails env = false ->
  introspect_app env listing w
  = (Returned
       match files w !! js "index.js" with
       | Some txt =>
           if bool_decide (js "index.js" ∈ take 200 listing)
           then [mkFileReport (js "index.js") (utf8_length txt)
                   [mkMarkerReport (js "routes") (includes txt ROUTES_MARKER);
                    mkMarkerReport (js "helpers") (includes txt HELPERS_MARKER)]]
           else []
       | None => []
       end, w).
Proof.
  intros Hnd Hread. unfold introspect_app.
  apply introspect_loop_spec; [|done].
  eapply sublist_NoDup; [exact Hnd|apply sublist_take].
Qed.

Lemma introspect_reports_index_js_witness :
  introspect_app quiet_env [js "panel.html"; js "index.js"; js "fix-backups"]
    test_world
  = (Returned [mkFileReport (js "index.js") 100
                 [mkMarkerReport (js "routes") true;
                  mkMarkerReport (js "helpers") false]], test_world).
Proof.
  rewrite (introspect_reports_index_js quiet_env
             [js "panel.html"; js "index.js"; js "fix-backups"] test_world).
  - vm_compute. reflexivity.
  - repeat (apply NoDup_cons; split; [vm_compute; intros H;
      repeat (apply elem_of_cons in H as [H|H]; [discriminate|]);
      by apply elem_of_nil in H|]). apply NoDup_nil. done.
  - reflexivity.
Defined.

(** ** Tags *)

Lemma includes_extend (a s b p : list ascii) :
  includes s p = true -> includes (a ++ s ++ b) p = true.
Proof.
  unfold includes. intros [i Hi]%bool_decide_eq_true_1.
  apply bool_decide_eq_true_2. apply indexOf_Some in Hi. rewrite Hi.
  rewrite <- !app_assoc, (app_assoc a). apply indexOf_occurs.
Qed.

Lemma test_ci_extend (alts : list (list ascii)) (a s b : list ascii) :
  test_ci alts s = true -> test_ci alts (a ++ s ++ b) = true.
Proof.
  unfold test_ci. rewrite !existsb_exists. intros (p & Hp & Hin).
  exists p. split; [done|]. unfold toLowerCase. rewrite !map_app.
  by apply includes_extend.
Qed.

(** X23. The tags come in the fixed order error, success, database, auth,
    ui, each at most once; and tagging is monotone in the text: every tag of
    a text is a tag of any text that contains it. *)
Theorem auto_tags_monotone (a txt b : list ascii) :
  auto_tags txt `sublist_of`
    [js "error"; js "success"; js "database"; js "auth"; js "ui"]
  /\ auto_tags txt `sublist_of` auto_tags (a ++ txt ++ b).
Proof.
  unfold auto_tags. split.
  - repeat match goal with |- context [test_ci ?l ?t] => destruct (test_ci l t) end;
      cbn [app]; repeat first [apply sublist_nil | apply sublist_skip | apply sublist_cons].
  - repeat match goal with
           | |- context [test_ci ?l txt] =>
               let H := fresh in
               destruct (test_ci l txt) eqn:H;
               [rewrite (test_ci_extend l a txt b H)|]
           end;
      cbn [app];
      repeat match goal with
             | |- context [test_ci ?l ?t] => destruct (test_ci l t)
             end;
      cbn [app]; repeat first [apply sublist_nil | apply sublist_skip | apply sublist_cons].
Qed.

(** ** Restoring what was replaced *)

(** X24. Whatever either handler does to a file, the content it replaced can
    be restored: if a file does not hold afterwards what it held before -
    after a successful write or a failed one - the backups directory holds
    the previous content under the file's name, the clock stamp and
    [.bak]. *)
Theorem replaced_content_is_backed_up (sha256 : list ascii -> list ascii)
    (env : Env) (req : Request) (w : World) (f old : list ascii) :
  files w !! f = Some old ->
  (files (apply_fix sha256 env req w).2 !! f <> Some old ->
   exists b, backups (apply_fix sha256 env req w).2 = Some b
             /\ b !! backup_name env f = Some old)
  /\ (files (apply_proposal sha256 env req w).2 !! f <> Some old ->
      exists b, backups (apply_proposal sha256 env req w).2 = Some b
                /\ b !! backup_name env f = Some old).
Proof.
  intros Hold.
  assert (Hgen : forall w', guarded env (disk w) (disk w') ->
            files w' !! f <> Some old ->
            exists b, backups w' = Some b /\ b !! backup_name env f = Some old).
  { intros w' [[[Hfiles _]|(path & old' & new & left & Hp & _ & Hb & Hf)] _] Hne.
    - cbn in Hfiles. rewrite Hfiles in Hne. by destruct Hne.
    - cbn in Hp, Hb, Hf. destruct (decide (f = path)) as [->|Hfp].
      + rewrite Hold in Hp. injection Hp as <-. eexists. split; [exact Hb|].
        apply lookup_insert_eq.
      + rewrite Hf, lookup_insert_ne in Hne by done. by destruct Hne. }
  split; apply Hgen; [apply apply_fix_guarded|apply apply_proposal_guarded].
Qed.

Lemma replaced_content_is_backed_up_witness :
  exists b,
    backups (apply_fix plain_digest
               (mkEnv (js "secret") (js "t") false false false (Some (js "db.may"))
                  (fun _ => true) true)
               (panel_request "apply" "x") test_world).2 = Some b
    /\ b !! js "index.js.t.bak" = Some index_js.
Proof.
  refine (proj1 (replaced_content_is_backed_up plain_digest
                   (mkEnv (js "secret") (js "t") false false false (Some (js "db.may"))
                      (fun _ => true) true)
                   (panel_request "apply" "x") test_world (js "index.js") index_js _) _).
  - vm_compute. reflexivity.
  - vm_compute. discriminate.
Defined.

(** ** A preview does not consult the duplicate guard *)

(** X25. The preview of a proposal answers 200 with the proposal hash and the
    diff whether or not the proposal was applied before: only the apply path
    looks the hash up. *)
Theorem preview_ignores_records (sha256 : list ascii -> list ascii)
    (env : Env) (req : Request) (w : World)
    (original marker : list ascii) (idx : nat) :
  let file := or_empty (req_targetFile req) in
  let zone := or_empty (req_zone req) in
  let intent := or_empty (req_intent req) in
  let code := trim (or_empty (req_proposedCode req)) in
  validated env req -> read_fails env = false ->
  req_mode req <> Some (js "apply") ->
  INSERTION_ZONES zone = OwnZone marker ->
  ready w file original marker idx ->
  (apply_proposal sha256 env req w).1
  = Returned (ok (ProposalPreview file zone intent
                    (proposal_hash sha256 file zone intent code)
                    (generateSemanticDiff original
                       (splice_at (idx + length marker) original code)))).
Proof.
  intros file zone intent code Hval Hread Hmode Hzone (Hfree & Hfile & Hidx).
  subst file zone intent code.
  rewrite (apply_proposal_enters_locked sha256 env req w original Hval Hread
             Hfree Hfile).
  rewrite Hzone, Hidx.
  rewrite (valid_mode_not_apply req Hmode) by apply Hval.
  pose proof (apply_proposal_at_preview sha256 env (or_empty (req_targetFile req))
                (or_empty (req_zone req)) (or_empty (req_proposedCode req))
                (or_empty (req_intent req))
                (default (js "MLearning") (req_project req))
                (or_empty (req_targetFile req)) original marker idx
                (acquire (or_empty (req_targetFile req)) w)) as Hprev.
  destruct (apply_proposal_at _ _ _ _ _ _ _ _ _ _ _ _ _) as [o w1].
  cbn in Hprev. by subst o.
Qed.

Lemma preview_ignores_records_witness :
  responds 200
    (apply_proposal plain_digest quiet_env (panel_request "dry-run" "ok()")
       (apply_proposal plain_digest quiet_env (panel_request "apply" "ok()")
          test_world).2).
Proof.
  eexists. 
  refine (preview_ignores_records plain_digest quiet_env
            (panel_request "dry-run" "ok()")
            (apply_proposal plain_digest quiet_env (panel_request "apply" "ok()")
               test_world).2
            (splice_at (13 + length ROUTES_MARKER) index_js (js "ok()"))
            ROUTES_MARKER 13 _ _ _ _ _);
    try (vm_compute; reflexivity).
  - repeat split; try (vm_compute; reflexivity). vm_compute. discriminate.
  - vm_compute. discriminate.
  - repeat split; vm_compute; reflexivity.
Defined.
